(** * Bionic motor CAN codec: command encoder and response decoder

A shallow embedding of [bionic_commands.py] and [bionic_responses.py].

- Python [int] is [Z]; the bit operators are [Z.shiftl], [Z.shiftr],
  [Z.land] and [Z.lor], which agree with Python's two's-complement
  reading of negative numbers.
- Python [float] is the kernel's binary64 [float]; arithmetic is the
  primitive one, conversions go through [SpecFloat].
- [bytes] is [list byte], as the decoder annotates its argument
  ([msg: bytes]); indexing a [bytes] object yields an [int].
- A raised exception is the [Raise] outcome of the [result] monad. *)

From Stdlib Require Import ZArith List Bool String Lia Floats.
From Stdlib.Strings Require Import Byte HexString.
Import ListNotations.

Local Open Scope Z_scope.

(** ** The Python fragment the two modules rely on *)

Module Py.

(** The exceptions the code can raise. *)
Inductive exn : Type :=
| IndexError                (* a sequence index out of range *)
| KeyError (key : Z)        (* a dict lookup with an absent key *)
| StructError               (* struct.error: wrong buffer size *)
| OverflowError             (* int(inf) *)
| ValueError.               (* int(nan), or a negative shift count *)

Inductive result (A : Type) : Type :=
| Ok (a : A)
| Raise (e : exn).
Arguments Ok {A} a.
Arguments Raise {A} e.

Definition bind {A B} (r : result A) (k : A -> result B) : result B :=
  match r with
  | Ok a => k a
  | Raise e => Raise e
  end.

(** The call comes back with a value. *)
Definition returns {A} (r : result A) : Prop := exists a, r = Ok a.

(** *** Integers *)

(** [a << n]; a negative shift count is a [ValueError]. *)
Definition lshift (a n : Z) : result Z :=
  if n <? 0 then Raise ValueError else Ok (Z.shiftl a n).

(** *** Floats *)

(** The float an int operand becomes in mixed arithmetic: correctly
    rounded, and exact below [2^53]. The decoder applies it to field
    values below [2^16] only. *)
Definition float_of_int (z : Z) : float :=
  SF2Prim (binary_normalize prec emax z 0 false).

(** [int(x)]: truncation toward zero; [nan] and the infinities raise. *)
Definition int_of_float (x : float) : result Z :=
  match Prim2SF x with
  | S754_zero _ => Ok 0
  | S754_infinity _ => Raise OverflowError
  | S754_nan => Raise ValueError
  | S754_finite s m e =>
      let v := Z.shiftl (Zpos m) e in
      Ok (if s then - v else v)
  end.

(** [a / b] on two ints: the exact quotient, rounded once. The callers
    divide by the literals 2 and 300, so Python's ZeroDivisionError does
    not occur; a quotient beyond the float range, an OverflowError in
    Python, is an infinity here and raises that same error at the [int]
    that follows. *)
Definition int_truediv (a b : Z) : float :=
  match a, b with
  | Z0, _ => SF2Prim (SFdiv prec emax (S754_zero false) (binary_normalize prec emax b 0 false))
  | _, Z0 => nan
  | Zpos p, Zpos q => SF2Prim (SFdiv prec emax (S754_finite false p 0) (S754_finite false q 0))
  | Zpos p, Zneg q => SF2Prim (SFdiv prec emax (S754_finite false p 0) (S754_finite true q 0))
  | Zneg p, Zpos q => SF2Prim (SFdiv prec emax (S754_finite true p 0) (S754_finite false q 0))
  | Zneg p, Zneg q => SF2Prim (SFdiv prec emax (S754_finite true p 0) (S754_finite true q 0))
  end.

(** [math.pi] and [math.radians]: CPython multiplies by [pi / 180.0]. *)
Definition pi : float := 0x1.921fb54442d18p+1%float.
Definition radians (x : float) : float := (x * (pi / 180))%float.

(** *** binary32, for [struct]'s "f" format *)

Definition prec32 : Z := 24.
Definition emax32 : Z := 128.

(** The 32 bits of a binary32 value. The sign and payload of a nan are
    not kept: every nan is the quiet nan [0x7FC00000]. *)
Definition bits_of_binary32 (x : spec_float) : Z :=
  let sign (s : bool) := if s then 0x80000000 else 0 in
  match x with
  | S754_zero s => sign s
  | S754_infinity s => Z.lor (sign s) 0x7F800000
  | S754_nan => 0x7FC00000
  | S754_finite s m e =>
      if Zpos m <? 0x800000
      then Z.lor (sign s) (Zpos m)
      else Z.lor (sign s) (Z.lor (Z.shiftl (e + 150) 23) (Zpos m - 0x800000))
  end.

(** [struct.pack("f", x)] read back as an unsigned int. The native "f"
    format is a C cast to [float]: [x] is rounded to binary32, to an
    infinity when it is beyond the range, and nothing is raised. *)
Definition pack_f (x : float) : Z :=
  match Prim2SF x with
  | S754_finite s m e => bits_of_binary32 (binary_round prec32 emax32 s m e)
  | y => bits_of_binary32 y
  end.

(** The binary32 value with the given 32 bits, as a [float]. *)
Definition float_of_bits32 (w : Z) : float :=
  let s := Z.testbit w 31 in
  let ex := Z.land (Z.shiftr w 23) 0xFF in
  let m := Z.land w 0x7FFFFF in
  let signed (v : Z) := if s then - v else v in
  if ex =? 255 then
    if m =? 0 then (if s then neg_infinity else infinity) else nan
  else if ex =? 0 then
    SF2Prim (binary_normalize prec emax (signed m) (-149) s)
  else
    SF2Prim (binary_normalize prec emax (signed (0x800000 + m)) (ex - 150) s).

(** *** bytes *)

Definition byte_val (b : byte) : Z := Z.of_N (Byte.to_N b).

(** [msg[i]] for [i >= 0]. *)
Definition index (msg : list byte) (i : nat) : result Z :=
  match nth_error msg i with
  | Some b => Ok (byte_val b)
  | None => Raise IndexError
  end.

(** [msg[lo:hi]] and [msg[lo:]] for [0 <= lo <= hi]: never raise. *)
Definition slice (msg : list byte) (lo hi : nat) : list byte :=
  firstn (hi - lo) (skipn lo msg).
Definition slice_from (msg : list byte) (lo : nat) : list byte :=
  skipn lo msg.

(** [int.from_bytes(bs, "big")]; the empty buffer gives 0. *)
Definition int_from_bytes_big (bs : list byte) : Z :=
  fold_left (fun acc b => acc * 256 + byte_val b) bs 0.

(** [struct.unpack("!f", bs)[0]]: exactly four bytes, else struct.error. *)
Definition unpack_f_be (bs : list byte) : result float :=
  if (List.length bs =? 4)%nat
  then Ok (float_of_bits32 (int_from_bytes_big bs))
  else Raise StructError.

(** *** Values and dicts *)

Inductive value : Type :=
| VInt (z : Z)
| VStr (s : string)
| VFloat (x : float).

(** A dict literal, in insertion order. *)
Definition dict : Type := list (string * value).

Fixpoint dict_get (k : string) (d : dict) : option value :=
  match d with
  | [] => None
  | (k', v) :: d' => if String.eqb k k' then Some v else dict_get k d'
  end.

(** [table[key]] on a constant dict with int keys. *)
Definition lookup (table : Z -> option string) (key : Z) : result string :=
  match table key with
  | Some s => Ok s
  | None => Raise (KeyError key)
  end.

End Py.

Import Py.

Declare Scope py_scope.
Delimit Scope py_scope with py.
Notation "x <- c ;; k" := (bind c (fun x => k))
  (at level 61, c at next level, right associativity) : py_scope.
Local Open Scope py_scope.

(** ** bionic_commands.py *)

Module Commands.

Definition push_bits (value data num_bits : Z) : result Z :=
  value <- lshift value num_bits ;;
  mask <- lshift 1 num_bits ;;
  Ok (Z.lor value (Z.land data (mask - 1))).

Definition push_fp32_bits (value : Z) (data : float) : result Z :=
  let data_bits := pack_f data in
  push_bits value data_bits 32.

(** The loop of [split_into_bytes]: [n] rounds of append-and-shift. *)
Fixpoint split_loop (n : nat) (command : Z) (bytes_list : list Z) : list Z :=
  match n with
  | O => bytes_list
  | S n' => split_loop n' (Z.shiftr command 8) (bytes_list ++ [Z.land command 0xFF])
  end.

Definition split_into_bytes (command length : Z) (little_endian : bool) : list Z :=
  let bytes_list := split_loop (Z.to_nat length) command [] in
  if little_endian then rev bytes_list else bytes_list.

(** The defaults of [length] and [little_endian]. *)
Definition default_length : Z := 8.
Definition default_little_endian : bool := true.

(** *** Movement commands *)

Definition set_position_control
    (position : float) (motor_mode : Z) (max_speed max_current : float)
    (message_return : Z) : result (list Z) :=
  let command := 0 in
  command <- push_bits command motor_mode 3 ;;
  command <- push_fp32_bits command position ;;
  speed10 <- int_of_float (max_speed * 10) ;;
  command <- push_bits command speed10 15 ;;
  current10 <- int_of_float (max_current * 10) ;;
  command <- push_bits command current10 12 ;;
  command <- push_bits command message_return 2 ;;
  Ok (split_into_bytes command default_length default_little_endian).

Definition set_speed_control
    (speed : float) (motor_mode : Z) (current : float)
    (message_return : Z) : result (list Z) :=
  let command := 0 in
  command <- push_bits command motor_mode 3 ;;
  command <- push_bits command 0 3 ;;
  command <- push_bits command message_return 2 ;;
  command <- push_fp32_bits command speed ;;
  current10 <- int_of_float (current * 10) ;;
  command <- push_bits command current10 16 ;;
  Ok (split_into_bytes command 7 default_little_endian).

Definition set_current_torque_control
    (value control_status motor_mode message_return : Z) : result (list Z) :=
  let command := 0 in
  command <- push_bits command motor_mode 3 ;;
  command <- push_bits command control_status 3 ;;
  command <- push_bits command message_return 2 ;;
  command <- push_bits command (value * 10) 16 ;;
  Ok (split_into_bytes command 3 default_little_endian).

Definition set_zero_position (motor_id : Z) : result (list Z) :=
  let upper := Z.shiftr motor_id 8 in
  let lower := Z.land motor_id 0xFF in
  let command := 0 in
  command <- push_bits command upper 8 ;;
  command <- push_bits command lower 8 ;;
  command <- push_bits command 0 8 ;;
  command <- push_bits command 3 8 ;;
  Ok (split_into_bytes command 4 default_little_endian).

(** *** Motor information commands *)

Definition get_motor_pos : result (list Z) :=
  let command := 0 in
  command <- push_bits command 0x7 3 ;;
  command <- push_bits command 0x0 5 ;;
  command <- push_bits command 0x1 8 ;;
  Ok (split_into_bytes command 2 default_little_endian).

Definition get_motor_speed : result (list Z) :=
  let command := 0 in
  command <- push_bits command 0x7 3 ;;
  command <- push_bits command 0x0 5 ;;
  command <- push_bits command 0x2 8 ;;
  Ok (split_into_bytes command 2 default_little_endian).

Definition get_motor_current : result (list Z) :=
  let command := 0 in
  command <- push_bits command 0x7 3 ;;
  command <- push_bits command 0x0 5 ;;
  command <- push_bits command 0x3 8 ;;
  Ok (split_into_bytes command 2 default_little_endian).

Definition get_motor_power : result (list Z) :=
  let command := 0 in
  command <- push_bits command 0x7 3 ;;
  command <- push_bits command 0x0 5 ;;
  command <- push_bits command 0x4 8 ;;
  Ok (split_into_bytes command 2 default_little_endian).

(** *** Motor feedback control commands *)

(** The scaled value each inner helper of [force_position_hybrid_control]
    hands to [int]. *)
Definition degrees_scaled (degrees : float) : float :=
  ((radians degrees + 12.5) / 25.0 * 65536)%float.
Definition rpm_scaled (rpm : float) : float :=
  ((rpm + 18.0) / 36.0 * 4095)%float.
Definition torque_scaled (torque : Z) : float :=
  (int_truediv (torque + 150) 300 * 4095)%float.

Definition degrees_to_int (degrees : float) : result Z :=
  n <- int_of_float (degrees_scaled degrees) ;;
  Ok (Z.max 0 (Z.min 65536 n)).

Definition rpm_to_int (rpm : float) : result Z :=
  n <- int_of_float (rpm_scaled rpm) ;;
  Ok (Z.max 0 (Z.min 4095 n)).

Definition torque_to_int (torque : Z) : result Z :=
  n <- int_of_float (torque_scaled torque) ;;
  Ok (Z.max 0 (Z.min 4095 n)).

Definition force_position_hybrid_control
    (kp kd position speed : float) (torque_ff : Z) : result (list Z) :=
  let command := 0 in
  command <- push_bits command 0 3 ;;
  kp_int <- int_of_float (kp * 4095 / 500) ;;
  command <- push_bits command kp_int 12 ;;
  kd_int <- int_of_float (kd * 511 / 5) ;;
  command <- push_bits command kd_int 9 ;;
  pos_int <- degrees_to_int position ;;
  command <- push_bits command pos_int 16 ;;
  speed_int <- rpm_to_int speed ;;
  command <- push_bits command speed_int 12 ;;
  torque_int <- torque_to_int torque_ff ;;
  command <- push_bits command torque_int 12 ;;
  Ok (split_into_bytes command default_length default_little_endian).

(** [hex(i)] is ["0x"] and the lower-case digits, with a leading ["-"]
    for a negative int: what [HexString.of_Z] writes. *)
Definition debug (command : list Z) : list string :=
  map HexString.of_Z command.

End Commands.

(** ** bionic_responses.py *)

Module Responses.

Definition ERROR_MAP (k : Z) : option string :=
  match k with
  | 0 => Some "No Errors"
  | 1 => Some "Motor Overheating"
  | 2 => Some "Motor Overcurrent"
  | 3 => Some "Motor Voltage too low"
  | 4 => Some "Motor Encoder Error"
  | 6 => Some "Motor brake voltage too high"
  | 7 => Some "DRV Driver Error"
  | _ => None
  end%string.

Definition QUERY_MAP (k : Z) : option string :=
  match k with
  | 0 => Some "Reserved"
  | 1 => Some "Angle"
  | 2 => Some "Speed"
  | 3 => Some "Current"
  | 4 => Some "Power"
  | 5 => Some "Accel"
  | 6 => Some "Current Flux"
  | _ => None
  end%string.

Definition CONFIG_MAP (k : Z) : option string :=
  match k with
  | 0 => Some "Reserved"
  | 1 => Some "Configuring System Acceleration"
  | 2 => Some "Configuring Flux Observation Gain"
  | 3 => Some "Configuring Damping Coefficient"
  | _ => None
  end%string.

Definition CONFIG_STATUS_MAP (k : Z) : option string :=
  match k with
  | 0 => Some "Failure"
  | 1 => Some "Success"
  | _ => None
  end%string.

(** [for i in range(1, 6): if msg[0] >> 5 == i: return i], then [-1]. *)
Fixpoint get_message_type_loop (range : list Z) (msg : list byte) : result Z :=
  match range with
  | [] => Ok (-1)
  | i :: range' =>
      b0 <- index msg 0 ;;
      if Z.shiftr b0 5 =? i then Ok i else get_message_type_loop range' msg
  end.

Definition get_message_type (msg : list byte) : result Z :=
  get_message_type_loop [1; 2; 3; 4; 5] msg.

(** The inner helpers of [position_speed_message] (message type 1). *)
Module PositionSpeedMessage.

Definition get_position (data : Z) : float :=
  (float_of_int data * (25.0 / 65536.0) - 12.5)%float.

Definition get_speed (data : Z) : float :=
  (float_of_int data * (36.0 / 4095.0) - 18.0)%float.

Definition get_current (data : Z) : float :=
  (float_of_int data * (140.0 / 4095) - 70.0)%float.

Definition get_temp (data : float) : float := ((data - 50.0) / 2.0)%float.

Definition get_mos_temp (data : float) : float := ((data - 50.0) / 2.0)%float.

End PositionSpeedMessage.

Definition position_speed_message (msg : list byte) : result dict :=
  b0 <- index msg 0 ;;
  let error := Z.land b0 0x1F in
  let motor_pos := int_from_bytes_big (slice msg 1 3) in
  let motor_speed := Z.shiftr (int_from_bytes_big (slice msg 3 5)) 4 in
  let motor_current := Z.land (int_from_bytes_big (slice msg 4 6)) 0xFFF in
  b6 <- index msg 6 ;;
  let motor_temp := int_truediv (b6 - 50) 2 in
  b7 <- index msg 7 ;;
  let motor_mos_temp := int_truediv (b7 - 50) 2 in
  err <- lookup ERROR_MAP error ;;
  Ok [ ("Message Type", VInt 1);
       ("Error", VStr err);
       ("Position", VFloat (PositionSpeedMessage.get_position motor_pos));
       ("Speed", VFloat (PositionSpeedMessage.get_speed motor_speed));
       ("Current", VFloat (PositionSpeedMessage.get_current motor_current));
       ("Temperature", VFloat (PositionSpeedMessage.get_temp motor_temp));
       ("MOS", VFloat (PositionSpeedMessage.get_mos_temp motor_mos_temp)) ]%string.

(** The inner helpers of [position_message] (message type 2). The float
    comes out of [struct.unpack]; [int.from_bytes] is called without a
    byte order, which is then "big" (Python 3.11 and later). *)
Module PositionMessage.

Definition get_position (data : float) : float := data.

Definition get_current (data : Z) : float := (float_of_int data / 10.0)%float.

Definition get_temp (data : Z) : float := ((float_of_int data - 50.0) / 2.0)%float.

End PositionMessage.

Definition position_message (msg : list byte) : result dict :=
  b0 <- index msg 0 ;;
  let error := Z.land b0 0x1F in
  motor_pos <- unpack_f_be (slice msg 1 5) ;;
  let motor_current := int_from_bytes_big (slice msg 5 7) in
  motor_temp <- index msg 7 ;;
  err <- lookup ERROR_MAP error ;;
  Ok [ ("Message Type", VInt 2);
       ("Error", VStr err);
       ("Position", VFloat (PositionMessage.get_position motor_pos));
       ("Current", VFloat (PositionMessage.get_current motor_current));
       ("Temperature", VFloat (PositionMessage.get_temp motor_temp)) ]%string.

(** The inner helpers of [speed_message] (message type 3). *)
Module SpeedMessage.

Definition get_speed (data : float) : float := data.

Definition get_current (data : Z) : float := (float_of_int data / 10.0)%float.

Definition get_temp (data : Z) : float := ((float_of_int data - 50.0) / 2.0)%float.

End SpeedMessage.

Definition speed_message (msg : list byte) : result dict :=
  b0 <- index msg 0 ;;
  let error := Z.land b0 0x1F in
  motor_speed <- unpack_f_be (slice msg 1 5) ;;
  let motor_current := int_from_bytes_big (slice msg 5 7) in
  motor_temp <- index msg 7 ;;
  err <- lookup ERROR_MAP error ;;
  Ok [ ("Message Type", VInt 3);
       ("Error", VStr err);
       ("Speed", VFloat (SpeedMessage.get_speed motor_speed));
       ("Current", VFloat (SpeedMessage.get_current motor_current));
       ("Temperature", VFloat (SpeedMessage.get_temp motor_temp)) ]%string.

Definition configuration_message (msg : list byte) : result dict :=
  b0 <- index msg 0 ;;
  let error := Z.land b0 0x1F in
  configuration_code <- index msg 1 ;;
  configuration_status <- index msg 2 ;;
  err <- lookup ERROR_MAP error ;;
  code <- lookup CONFIG_MAP configuration_code ;;
  status <- lookup CONFIG_STATUS_MAP configuration_status ;;
  Ok [ ("Message Type", VInt 4);
       ("Error", VStr err);
       ("Configuration Code", VStr code);
       ("Configuration Status", VStr status) ]%string.

Definition custom_message (msg : list byte) : result dict :=
  b0 <- index msg 0 ;;
  let error := Z.land b0 0x1F in
  query_code <- index msg 1 ;;
  let data := slice_from msg 2 in
  data <- unpack_f_be data ;;
  err <- lookup ERROR_MAP error ;;
  query <- lookup QUERY_MAP query_code ;;
  Ok [ ("Message Type", VInt 5);
       ("Error", VStr err);
       ("Query Code", VStr query);
       ("Data", VFloat data) ]%string.

Definition MESSAGE_MAP (k : Z) : option (list byte -> result dict) :=
  match k with
  | 1 => Some position_speed_message
  | 2 => Some position_message
  | 3 => Some speed_message
  | 4 => Some configuration_message
  | 5 => Some custom_message
  | _ => None
  end.

Definition valid_message (msg : list byte) : result bool :=
  t <- get_message_type msg ;;
  Ok (match MESSAGE_MAP t with Some _ => true | None => false end).

(** [None] is the Python [None] the function returns for an unknown type. *)
Definition read_result (msg : list byte) : result (option dict) :=
  message_type <- get_message_type msg ;;
  valid <- valid_message msg ;;
  if valid : bool then
    match MESSAGE_MAP message_type with
    | Some extractor => d <- extractor msg ;; Ok (Some d)
    | None => Raise (KeyError message_type)
    end
  else Ok None.

End Responses.

Import Commands Responses.

(** ** Vocabulary of the statements *)

(** Byte [i] of [command], counted from the least significant end. *)
Definition byte_at (command : Z) (i : nat) : Z :=
  Z.land (Z.shiftr command (8 * Z.of_nat i)) 0xFF.

Definition bytes_lsb_first (command : Z) (n : nat) : list Z :=
  map (byte_at command) (seq 0 n).

Definition bytes_msb_first (command : Z) (n : nat) : list Z :=
  rev (bytes_lsb_first command n).

(** The command variants, with the arguments of their encoders. *)
Inductive command : Type :=
| PositionControl (position : float) (motor_mode : Z)
    (max_speed max_current : float) (message_return : Z)
| SpeedControl (speed : float) (motor_mode : Z) (current : float)
    (message_return : Z)
| CurrentTorqueControl (value control_status motor_mode message_return : Z)
| ZeroPositionSet (motor_id : Z)
| QueryPosition
| QuerySpeed
| QueryCurrent
| QueryPower
| ForcePositionHybridControl (kp kd position speed : float) (torque_ff : Z).

Definition encode (c : command) : result (list Z) :=
  match c with
  | PositionControl p mode ms mc ret => set_position_control p mode ms mc ret
  | SpeedControl s mode cur ret => set_speed_control s mode cur ret
  | CurrentTorqueControl v st mode ret => set_current_torque_control v st mode ret
  | ZeroPositionSet id => set_zero_position id
  | QueryPosition => get_motor_pos
  | QuerySpeed => get_motor_speed
  | QueryCurrent => get_motor_current
  | QueryPower => get_motor_power
  | ForcePositionHybridControl kp kd p s t => force_position_hybrid_control kp kd p s t
  end.

(** The length each docstring announces ("Expect 8 bytes", ...); the
    queries split their accumulator into 2 bytes. *)
Definition declared_length (c : command) : nat :=
  match c with
  | PositionControl _ _ _ _ _ => 8
  | SpeedControl _ _ _ _ => 7
  | CurrentTorqueControl _ _ _ _ => 3
  | ZeroPositionSet _ => 4
  | QueryPosition | QuerySpeed | QueryCurrent | QueryPower => 2
  | ForcePositionHybridControl _ _ _ _ _ => 8
  end.

(** A float that is neither [nan] nor an infinity. *)
Definition finite (x : float) : bool :=
  match Prim2SF x with
  | S754_zero _ | S754_finite _ _ _ => true
  | S754_infinity _ | S754_nan => false
  end.

(** The arguments on which every [int] of a float in the encoder works. *)
Definition convertible (c : command) : bool :=
  match c with
  | PositionControl p _ ms mc _ =>
      finite (ms * 10) && finite (mc * 10)
  | SpeedControl _ _ cur _ => finite (cur * 10)
  | ForcePositionHybridControl kp kd p s t =>
      finite (kp * 4095 / 500) &&
      (finite (kd * 511 / 5) &&
       (finite (degrees_scaled p) &&
        (finite (rpm_scaled s) && finite (torque_scaled t))))
  | _ => true
  end.

Definition conversion_error (e : exn) : Prop :=
  e = OverflowError \/ e = ValueError.

Definition clamp (lo hi n : Z) : Z := Z.max lo (Z.min hi n).

(** A finite float is the rational [num / den] of these two integers. *)
Definition numerator (s : bool) (m : positive) (e : Z) : Z :=
  cond_Zopp s (Zpos m) * 2 ^ Z.max e 0.
Definition denominator (e : Z) : Z := 2 ^ Z.max (- e) 0.

(** The integer part of a finite float, toward zero. *)
Definition trunc_toward_zero (x : float) : option Z :=
  match Prim2SF x with
  | S754_zero _ => Some 0
  | S754_finite s m e => Some (Z.quot (numerator s m e) (denominator e))
  | S754_infinity _ | S754_nan => None
  end.

(** The nearest integer of a finite float, ties to the even one (what
    Python's [round] gives). *)
Definition round_half_even (x : float) : option Z :=
  match Prim2SF x with
  | S754_zero _ => Some 0
  | S754_finite s m e =>
      let q := numerator s m e / denominator e in
      let r := numerator s m e mod denominator e in
      Some (match 2 * r ?= denominator e with
            | Lt => q
            | Gt => q + 1
            | Eq => if Z.even q then q else q + 1
            end)
  | S754_infinity _ | S754_nan => None
  end.

(** The conversions as the specification words them, with [round]. *)
Definition spec_degrees_to_int (degrees : float) : option Z :=
  option_map (clamp 0 65536) (round_half_even (degrees_scaled degrees)).
Definition spec_rpm_to_int (rpm : float) : option Z :=
  option_map (clamp 0 4095) (round_half_even (rpm_scaled rpm)).
Definition spec_torque_to_int (torque : Z) : option Z :=
  option_map (clamp 0 4095) (round_half_even (torque_scaled torque)).

(** The accumulator after pushing the fields [(data, width)] in order. *)
Definition pack_fields (fields : list (Z * Z)) : Z :=
  fold_left (fun acc f => acc * 2 ^ snd f + fst f mod 2 ^ snd f) fields 0.

Definition error_code (b0 : byte) : Z := Z.land (byte_val b0) 0x1F.

(** The top three bits of byte 0. *)
Definition type_tag (b0 : byte) : Z := Z.shiftr (byte_val b0) 5.

Definition classify (tag : Z) : Z :=
  if (1 <=? tag) && (tag <=? 5) then tag else -1.

(** The length the extractor of each type needs. *)
Definition required_length (t : Z) : nat :=
  match t with
  | 1 | 2 | 3 => 8
  | 4 => 3
  | 5 => 6
  | _ => 0
  end.

(** The lengths on which the extractor of each type reads all its fields:
    types 1 to 4 ignore what follows their last field, type 5 unpacks all
    the bytes after index 2 as one float. *)
Definition long_enough (t : Z) (n : nat) : bool :=
  match t with
  | 1 | 2 | 3 => (8 <=? n)%nat
  | 4 => (3 <=? n)%nat
  | 5 => (n =? 6)%nat
  | _ => false
  end.

(** The exception a too short payload of each type ends in. *)
Definition short_payload_exn (t : Z) (n : nat) : exn :=
  match t with
  | 2 | 3 => if (n <? 5)%nat then StructError else IndexError
  | 5 => if (n <? 2)%nat then IndexError else StructError
  | _ => IndexError
  end.

Definition type1_dict (err : string) (b1 b2 b3 b4 b5 b6 b7 : byte) : dict :=
  [ ("Message Type", VInt 1);
    ("Error", VStr err);
    ("Position", VFloat (PositionSpeedMessage.get_position (int_from_bytes_big [b1; b2])));
    ("Speed", VFloat (PositionSpeedMessage.get_speed (Z.shiftr (int_from_bytes_big [b3; b4]) 4)));
    ("Current", VFloat (PositionSpeedMessage.get_current (Z.land (int_from_bytes_big [b4; b5]) 0xFFF)));
    ("Temperature", VFloat (PositionSpeedMessage.get_temp (int_truediv (byte_val b6 - 50) 2)));
    ("MOS", VFloat (PositionSpeedMessage.get_mos_temp (int_truediv (byte_val b7 - 50) 2))) ]%string.

Definition type2_dict (err : string) (b1 b2 b3 b4 b5 b6 b7 : byte) : dict :=
  [ ("Message Type", VInt 2);
    ("Error", VStr err);
    ("Position", VFloat (PositionMessage.get_position
                           (float_of_bits32 (int_from_bytes_big [b1; b2; b3; b4]))));
    ("Current", VFloat (PositionMessage.get_current (int_from_bytes_big [b5; b6])));
    ("Temperature", VFloat (PositionMessage.get_temp (byte_val b7))) ]%string.

Definition type3_dict (err : string) (b1 b2 b3 b4 b5 b6 b7 : byte) : dict :=
  [ ("Message Type", VInt 3);
    ("Error", VStr err);
    ("Speed", VFloat (SpeedMessage.get_speed
                        (float_of_bits32 (int_from_bytes_big [b1; b2; b3; b4]))));
    ("Current", VFloat (SpeedMessage.get_current (int_from_bytes_big [b5; b6])));
    ("Temperature", VFloat (SpeedMessage.get_temp (byte_val b7))) ]%string.

Definition type5_dict (err query : string) (data : list byte) : dict :=
  [ ("Message Type", VInt 5);
    ("Error", VStr err);
    ("Query Code", VStr query);
    ("Data", VFloat (float_of_bits32 (int_from_bytes_big data))) ]%string.

(** The temperature formula as the specification words it: [(raw - 50) / 2.0]
    on the raw byte. *)
Definition spec_temperature (raw : Z) : float :=
  ((float_of_int raw - 50.0) / 2.0)%float.

(** What type 1 does with a temperature byte: the formula, applied to the
    result of the formula. *)
Definition type1_temperature (raw : Z) : float :=
  PositionSpeedMessage.get_temp (int_truediv (raw - 50) 2).

(** ** Vocabulary of the further properties *)

(** [int.from_bytes(bytes(l), "big")] on a list of ints. *)
Definition int_of_byte_list (l : list Z) : Z :=
  fold_left (fun acc b => acc * 256 + b) l 0.

(** The fields [(data, width)] pushed in order with [push_bits]. *)
Fixpoint push_fields (acc : Z) (fields : list (Z * Z)) : result Z :=
  match fields with
  | [] => Ok acc
  | (d, w) :: fields' => acc' <- push_bits acc d w ;; push_fields acc' fields'
  end.

(** What a field of [w] bits keeps of [d]. *)
Definition masked (f : Z * Z) : Z := fst f mod 2 ^ snd f.

Definition total_width (fields : list (Z * Z)) : Z :=
  fold_right (fun f n => snd f + n) 0 fields.

(** The fields read back from an accumulator, the last pushed first:
    [widths] are given last first, [out] collects the fields. *)
Fixpoint pop_loop (widths : list Z) (c : Z) (out : list Z) : Z * list Z :=
  match widths with
  | [] => (c, out)
  | w :: widths' => pop_loop widths' (Z.shiftr c w) (Z.land c (Z.ones w) :: out)
  end.

Definition pop_fields (widths : list Z) (c : Z) : Z * list Z :=
  pop_loop (rev widths) c [].

(** The fields each encoder pushes, in order. *)
Definition command_fields (c : command) : result (list (Z * Z)) :=
  match c with
  | PositionControl p mode ms mc ret =>
      speed10 <- int_of_float (ms * 10) ;;
      current10 <- int_of_float (mc * 10) ;;
      Ok [ (mode, 3); (pack_f p, 32); (speed10, 15); (current10, 12); (ret, 2) ]
  | SpeedControl s mode cur ret =>
      current10 <- int_of_float (cur * 10) ;;
      Ok [ (mode, 3); (0, 3); (ret, 2); (pack_f s, 32); (current10, 16) ]
  | CurrentTorqueControl v st mode ret =>
      Ok [ (mode, 3); (st, 3); (ret, 2); (v * 10, 16) ]
  | ZeroPositionSet id =>
      Ok [ (Z.shiftr id 8, 8); (Z.land id 0xFF, 8); (0, 8); (3, 8) ]
  | QueryPosition => Ok [ (0x7, 3); (0x0, 5); (0x1, 8) ]
  | QuerySpeed => Ok [ (0x7, 3); (0x0, 5); (0x2, 8) ]
  | QueryCurrent => Ok [ (0x7, 3); (0x0, 5); (0x3, 8) ]
  | QueryPower => Ok [ (0x7, 3); (0x0, 5); (0x4, 8) ]
  | ForcePositionHybridControl kp kd p s t =>
      kp_int <- int_of_float (kp * 4095 / 500) ;;
      kd_int <- int_of_float (kd * 511 / 5) ;;
      pos_int <- degrees_to_int p ;;
      speed_int <- rpm_to_int s ;;
      torque_int <- torque_to_int t ;;
      Ok [ (0, 3); (kp_int, 12); (kd_int, 9); (pos_int, 16);
           (speed_int, 12); (torque_int, 12) ]
  end.

(** A 16 bit pattern read as a signed int. *)
Definition int16 (u : Z) : Z := if u <? 32768 then u else u - 65536.

Definition is_some {A} (o : option A) : bool :=
  match o with Some _ => true | None => false end.

(** The payloads every read and lookup of [read_result] succeeds on. *)
Definition decodable (msg : list byte) : bool :=
  match msg with
  | [] => false
  | b0 :: _ =>
      let t := classify (type_tag b0) in
      long_enough t (List.length msg) &&
      is_some (ERROR_MAP (error_code b0)) &&
      match t with
      | 4 => is_some (CONFIG_MAP (byte_val (nth 1 msg x00))) &&
             is_some (CONFIG_STATUS_MAP (byte_val (nth 2 msg x00)))
      | 5 => is_some (QUERY_MAP (byte_val (nth 1 msg x00)))
      | _ => true
      end
  end.

(** The three field values of a type 1 payload, byte by byte. *)
Definition type1_position_field (b1 b2 : byte) : Z :=
  byte_val b1 * 256 + byte_val b2.
Definition type1_speed_field (b3 b4 : byte) : Z :=
  byte_val b3 * 16 + byte_val b4 / 16.
Definition type1_current_field (b4 b5 : byte) : Z :=
  (byte_val b4 mod 16) * 256 + byte_val b5.

(** [lo <= x <= hi] and [lo <= x < hi] on floats. *)
Definition between (lo hi x : float) : bool :=
  PrimFloat.leb lo x && PrimFloat.leb x hi.
Definition between_lt (lo hi x : float) : bool :=
  PrimFloat.leb lo x && PrimFloat.ltb x hi.

(** The 3 bit tag that opens a command: the motor mode of the three
    movement commands, 7 for a query, 0 for the PD-hybrid command. The
    zero position command opens with the motor id instead. *)
Definition command_tag (c : command) : option Z :=
  match c with
  | PositionControl _ mode _ _ _ => Some (mode mod 8)
  | SpeedControl _ mode _ _ => Some (mode mod 8)
  | CurrentTorqueControl _ _ mode _ => Some (mode mod 8)
  | ZeroPositionSet _ => None
  | QueryPosition | QuerySpeed | QueryCurrent | QueryPower => Some 7
  | ForcePositionHybridControl _ _ _ _ _ => Some 0
  end.

(** The [n] consecutive ints from [start]. *)
Fixpoint zrange (start : Z) (n : nat) : list Z :=
  match n with
  | O => []
  | S n' => start :: zrange (start + 1) n'
  end.

(** * Properties *)

(** ** Bit-packing primitives *)

Section PushBits.

Lemma lshift_nonneg (a n : Z) : 0 <= n -> lshift a n = Ok (a * 2 ^ n).
Proof.
  intros Hn. unfold lshift.
  destruct (Z.ltb_spec n 0) as [Hlt | _]; [lia |].
  now rewrite Z.shiftl_mul_pow2.
Qed.

Lemma lshift_negative (a n : Z) : n < 0 -> lshift a n = Raise ValueError.
Proof.
  intros Hn. unfold lshift.
  destruct (Z.ltb_spec n 0) as [_ | Hge]; [reflexivity | lia].
Qed.

(** The shifted accumulator and the masked field share no bit. *)
Lemma shifted_masked_disjoint (a d w : Z) :
  0 <= w -> Z.land (a * 2 ^ w) (d mod 2 ^ w) = 0.
Proof.
  intros Hw. apply Z.bits_inj'. intros i Hi.
  rewrite Z.land_spec, Z.bits_0.
  destruct (Z.lt_ge_cases i w) as [Hlt | Hge].
  - now rewrite Z.mul_pow2_bits_low.
  - rewrite Z.mod_pow2_bits_high by lia. apply andb_false_r.
Qed.

(** [push_bits] for any accumulator, of either sign. *)
Lemma push_bits_arith (a d w : Z) :
  0 <= w -> push_bits a d w = Ok (a * 2 ^ w + d mod 2 ^ w).
Proof.
  intros Hw. unfold push_bits.
  rewrite !lshift_nonneg by assumption. cbn [bind].
  f_equal.
  replace (1 * 2 ^ w - 1) with (Z.ones w)
    by (rewrite Z.ones_equiv; lia).
  rewrite Z.land_ones by assumption.
  pose proof (shifted_masked_disjoint a d w Hw) as Hdisj.
  rewrite <- Z.lxor_lor by assumption.
  symmetry. now apply Z.add_nocarry_lxor.
Qed.

Lemma push_bits_negative_width (a d w : Z) :
  w < 0 -> push_bits a d w = Raise ValueError.
Proof.
  intros Hw. unfold push_bits. now rewrite lshift_negative.
Qed.

End PushBits.

(** C9. For a non-negative accumulator [a], any integer [d] and any
    width [w] (a bit count, so not negative), [push_bits a d w] returns
    [a * 2^w + (d mod 2^w)]; hence two data values that agree modulo [2^w]
    give the same result: an out-of-range value is cut to its low [w] bits
    and never rejected. *)
Theorem push_bits_shift_mask (a d w : Z) :
  0 <= a -> 0 <= w ->
  push_bits a d w = Ok (a * 2 ^ w + d mod 2 ^ w) /\
  (forall d', d' mod 2 ^ w = d mod 2 ^ w -> push_bits a d' w = push_bits a d w).
Proof.
  intros _ Hw. split.
  - now apply push_bits_arith.
  - intros d' Hd. rewrite !push_bits_arith by assumption. now rewrite Hd.
Qed.

Lemma push_bits_shift_mask_witness :
  push_bits 5 (-1) 3 = Ok (5 * 2 ^ 3 + (-1) mod 2 ^ 3) /\
  (forall d', d' mod 2 ^ 3 = (-1) mod 2 ^ 3 -> push_bits 5 d' 3 = push_bits 5 (-1) 3).
Proof. apply (push_bits_shift_mask 5 (-1) 3); lia. Defined.

Example push_bits_truncates : push_bits 5 (-1) 3 = Ok 47 /\ push_bits 5 15 3 = Ok 47.
Proof. split; reflexivity. Qed.

(** ** [split_into_bytes] *)

Section SplitIntoBytes.

Lemma byte_at_shift (command : Z) (i : nat) :
  byte_at (Z.shiftr command 8) i = byte_at command (S i).
Proof.
  unfold byte_at. rewrite Z.shiftr_shiftr by lia.
  do 2 f_equal. lia.
Qed.

Lemma split_loop_bytes (n : nat) :
  forall command acc,
    split_loop n command acc = acc ++ bytes_lsb_first command n.
Proof.
  unfold bytes_lsb_first.
  induction n as [| n IH]; intros command acc.
  - cbn. now rewrite app_nil_r.
  - cbn [split_loop]. rewrite IH, <- app_assoc. f_equal.
    cbn [seq map app]. f_equal.
    rewrite <- seq_shift, map_map.
    apply map_ext. intros i. apply byte_at_shift.
Qed.

Lemma bytes_lsb_first_length (command : Z) (n : nat) :
  List.length (bytes_lsb_first command n) = n.
Proof. unfold bytes_lsb_first. now rewrite length_map, length_seq. Qed.

Lemma split_into_bytes_length (command len : Z) (le : bool) :
  List.length (split_into_bytes command len le) = Z.to_nat len.
Proof.
  unfold split_into_bytes. rewrite split_loop_bytes. cbn [app].
  destruct le; [rewrite length_rev |]; apply bytes_lsb_first_length.
Qed.

Lemma byte_at_range (command : Z) (i : nat) : 0 <= byte_at command i < 256.
Proof.
  unfold byte_at. change 0xFF with (Z.ones 8).
  rewrite Z.land_ones by lia. apply Z.mod_pos_bound. lia.
Qed.

End SplitIntoBytes.

(** C7 (as the code has it). [split_into_bytes] takes [length] bytes of
    8 bits from the low end of the accumulator. With [little_endian] true,
    which is the default, they come most significant byte first; with
    [little_endian] false they come least significant byte first. *)
Theorem split_into_bytes_order (command len : Z) :
  default_little_endian = true /\
  split_into_bytes command len true = bytes_msb_first command (Z.to_nat len) /\
  split_into_bytes command len false = bytes_lsb_first command (Z.to_nat len) /\
  (forall le, List.length (split_into_bytes command len le) = Z.to_nat len).
Proof.
  repeat split.
  - unfold split_into_bytes. now rewrite split_loop_bytes.
  - unfold split_into_bytes. now rewrite split_loop_bytes.
  - intros le. apply split_into_bytes_length.
Qed.

(** C7 as stated fails: asking for little-endian output through the flag
    does not give the least significant byte first. *)
Lemma split_into_bytes_little_endian_flag_cex :
  split_into_bytes 0x0102 2 true = [1; 2] /\
  split_into_bytes 0x0102 2 true <> bytes_lsb_first 0x0102 2.
Proof. split; [reflexivity | discriminate]. Qed.

(** ** Output lengths of the encoder *)

Section EncoderLengths.

Lemma int_of_float_finite (x : float) :
  finite x = true -> exists n, int_of_float x = Ok n.
Proof.
  unfold finite, int_of_float.
  destruct (Prim2SF x); intros H; try discriminate; eauto.
Qed.

Lemma int_of_float_not_finite (x : float) :
  finite x = false -> exists e, int_of_float x = Raise e /\ conversion_error e.
Proof.
  unfold finite, int_of_float, conversion_error.
  destruct (Prim2SF x); intros H; try discriminate; eauto.
Qed.

End EncoderLengths.

(** One step of an encoder: a push of a fixed width, or a float handed
    to [int]. *)
Ltac push_step :=
  rewrite push_bits_arith by lia; cbn [bind].

Ltac int_step x :=
  let H := fresh "Hfin" in
  destruct (finite x) eqn:H;
  [ let n := fresh "n" in
    destruct (int_of_float_finite x H) as [n ->]; cbn [bind andb]
  | let e := fresh "e" in
    let He := fresh "He" in
    destruct (int_of_float_not_finite x H) as [e [-> He]]; cbn [bind andb];
    eexists; split; [reflexivity | exact He] ].

Ltac finish_length :=
  eexists; split; [reflexivity | apply split_into_bytes_length].

(** C8 (as the code has it). Every encoder returns a byte list of the
    declared length (8, 7, 3, 4, 2 or 8 bytes) on the arguments whose
    scaled floats are finite, and raises OverflowError or ValueError on
    the others, where [int] meets an infinity or a nan. The encoders that
    hand no float to [int], that of the current or torque command, that
    of the zero position and the four queries, return for all arguments. *)
Theorem encode_length (c : command) :
  if convertible c
  then exists l, encode c = Ok l /\ List.length l = declared_length c
  else exists e, encode c = Raise e /\ conversion_error e.
Proof.
  destruct c; cbn [convertible encode declared_length].
  - unfold set_position_control. push_step.
    unfold push_fp32_bits. push_step.
    int_step (max_speed * 10)%float. push_step.
    int_step (max_current * 10)%float. repeat push_step.
    finish_length.
  - unfold set_speed_control. repeat push_step.
    unfold push_fp32_bits. push_step.
    int_step (current * 10)%float. push_step.
    finish_length.
  - unfold set_current_torque_control. repeat push_step. finish_length.
  - unfold set_zero_position. repeat push_step. finish_length.
  - unfold get_motor_pos. repeat push_step. finish_length.
  - unfold get_motor_speed. repeat push_step. finish_length.
  - unfold get_motor_current. repeat push_step. finish_length.
  - unfold get_motor_power. repeat push_step. finish_length.
  - unfold force_position_hybrid_control, degrees_to_int, rpm_to_int, torque_to_int.
    push_step.
    int_step (kp * 4095 / 500)%float. push_step.
    int_step (kd * 511 / 5)%float. push_step.
    int_step (degrees_scaled position). push_step.
    int_step (rpm_scaled speed). push_step.
    int_step (torque_scaled torque_ff). push_step.
    finish_length.
Qed.

(** C8 as stated fails: a finite maximum speed whose tenfold is beyond
    the float range, or a nan, makes the encoder raise, so no byte list
    comes back. *)
Lemma encode_length_all_arguments_cex :
  set_position_control 90 1 0x1p+1023 5 0 = Raise OverflowError /\
  set_speed_control 0 2 nan 0 = Raise ValueError /\
  ~ (exists l, encode (PositionControl 90 1 0x1p+1023 5 0) = Ok l /\
               List.length l = declared_length (PositionControl 90 1 0x1p+1023 5 0)).
Proof.
  split; [vm_compute; reflexivity |].
  split; [vm_compute; reflexivity |].
  intros [l [H _]]. vm_compute in H. discriminate H.
Qed.

Example encode_length_defaults :
  encode (PositionControl 90 1 60 5 0) = Ok [40; 86; 128; 0; 0; 150; 0; 200] /\
  encode (ZeroPositionSet 1) = Ok [0; 1; 0; 3] /\
  encode QueryPosition = Ok [224; 1].
Proof. repeat split; vm_compute; reflexivity. Qed.

(** ** Fixed-point conversions of the PD-hybrid command *)

Section HybridControl.

Lemma int_of_float_trunc (x : float) (n : Z) :
  int_of_float x = Ok n -> trunc_toward_zero x = Some n.
Proof.
  unfold int_of_float, trunc_toward_zero.
  destruct (Prim2SF x) as [s | s | | s m e]; intros H; try discriminate.
  - now injection H as <-.
  - injection H as <-. f_equal. unfold numerator, denominator.
    destruct (Z.le_gt_cases 0 e) as [He | He].
    + rewrite (Z.max_l e 0), (Z.max_r (- e) 0) by lia.
      rewrite Z.pow_0_r, Z.quot_1_r, Z.shiftl_mul_pow2 by assumption.
      destruct s; cbn [cond_Zopp]; lia.
    + rewrite (Z.max_r e 0), (Z.max_l (- e) 0) by lia.
      rewrite Z.pow_0_r, Z.mul_1_r.
      replace (Z.shiftl (Zpos m) e) with (Z.shiftr (Zpos m) (- e))
        by (rewrite <- Z.shiftl_opp_r; f_equal; lia).
      rewrite Z.shiftr_div_pow2 by lia.
      assert (Hpow : 0 < 2 ^ (- e)) by (apply Z.pow_pos_nonneg; lia).
      destruct s; cbn [cond_Zopp].
      * rewrite Z.quot_opp_l by lia.
        now rewrite Z.quot_div_nonneg by lia.
      * now rewrite Z.quot_div_nonneg by lia.
Qed.

Lemma int_of_float_finite_trunc (x : float) :
  finite x = true ->
  exists n, int_of_float x = Ok n /\ trunc_toward_zero x = Some n.
Proof.
  intros H. destruct (int_of_float_finite x H) as [n Hn].
  exists n. split; [assumption | now apply int_of_float_trunc].
Qed.

Lemma clamp_range (lo hi n : Z) : lo <= hi -> lo <= clamp lo hi n <= hi.
Proof. unfold clamp. lia. Qed.

End HybridControl.

(** C6 (as the code has it). On the arguments whose scaled values are
    finite, [force_position_hybrid_control] converts the position in
    degrees with [clamp(0, 65536, trunc((radians(deg) + 12.5) / 25.0 * 65536))],
    the speed with [clamp(0, 4095, trunc((rpm + 18.0) / 36.0 * 4095))] and
    the feed-forward torque with [clamp(0, 4095, trunc((torque + 150) / 300 * 4095))],
    where [trunc] drops the fraction (toward zero) and does not round to
    the nearest integer; these three values are then pushed as the 16, 12
    and 12 bit fields of the 8 bytes that come back. *)
Theorem hybrid_control_fixed_point
    (kp kd position speed : float) (torque_ff : Z) :
  convertible (ForcePositionHybridControl kp kd position speed torque_ff) = true ->
  exists kp_int kd_int np ns nt,
    int_of_float (kp * 4095 / 500) = Ok kp_int /\
    int_of_float (kd * 511 / 5) = Ok kd_int /\
    trunc_toward_zero (degrees_scaled position) = Some np /\
    trunc_toward_zero (rpm_scaled speed) = Some ns /\
    trunc_toward_zero (torque_scaled torque_ff) = Some nt /\
    degrees_to_int position = Ok (clamp 0 65536 np) /\
    rpm_to_int speed = Ok (clamp 0 4095 ns) /\
    torque_to_int torque_ff = Ok (clamp 0 4095 nt) /\
    force_position_hybrid_control kp kd position speed torque_ff =
      Ok (split_into_bytes
            (pack_fields [ (0, 3); (kp_int, 12); (kd_int, 9);
                           (clamp 0 65536 np, 16);
                           (clamp 0 4095 ns, 12);
                           (clamp 0 4095 nt, 12) ])
            8 true).
Proof.
  cbn [convertible]. intros H.
  apply andb_prop in H as [Hkp H]. apply andb_prop in H as [Hkd H].
  apply andb_prop in H as [Hp H]. apply andb_prop in H as [Hs Ht].
  destruct (int_of_float_finite _ Hkp) as [kp_int Ekp].
  destruct (int_of_float_finite _ Hkd) as [kd_int Ekd].
  destruct (int_of_float_finite_trunc _ Hp) as [np [Ep Tp]].
  destruct (int_of_float_finite_trunc _ Hs) as [ns [Es Ts]].
  destruct (int_of_float_finite_trunc _ Ht) as [nt [Et Tt]].
  exists kp_int, kd_int, np, ns, nt.
  assert (Dp : degrees_to_int position = Ok (clamp 0 65536 np))
    by (unfold degrees_to_int; now rewrite Ep).
  assert (Ds : rpm_to_int speed = Ok (clamp 0 4095 ns))
    by (unfold rpm_to_int; now rewrite Es).
  assert (Dt : torque_to_int torque_ff = Ok (clamp 0 4095 nt))
    by (unfold torque_to_int; now rewrite Et).
  repeat (split; [assumption |]).
  unfold force_position_hybrid_control.
  rewrite Ekp, Ekd, Dp, Ds, Dt. cbn [bind].
  repeat push_step. reflexivity.
Qed.

Lemma hybrid_control_fixed_point_witness :
  exists kp_int kd_int np ns nt,
    int_of_float (15 * 4095 / 500) = Ok kp_int /\
    int_of_float (0.5 * 511 / 5) = Ok kd_int /\
    trunc_toward_zero (degrees_scaled 90) = Some np /\
    trunc_toward_zero (rpm_scaled 0) = Some ns /\
    trunc_toward_zero (torque_scaled 2) = Some nt /\
    degrees_to_int 90 = Ok (clamp 0 65536 np) /\
    rpm_to_int 0 = Ok (clamp 0 4095 ns) /\
    torque_to_int 2 = Ok (clamp 0 4095 nt) /\
    force_position_hybrid_control 15 0.5 90 0 2 =
      Ok (split_into_bytes
            (pack_fields [ (0, 3); (kp_int, 12); (kd_int, 9);
                           (clamp 0 65536 np, 16);
                           (clamp 0 4095 ns, 12);
                           (clamp 0 4095 nt, 12) ])
            8 true).
Proof.
  apply (hybrid_control_fixed_point 15 0.5 90 0 2).
  vm_compute. reflexivity.
Defined.

(** C6 as stated fails: the code drops the fraction where the claim
    rounds. A torque of 2 scales to 2074.8 and a speed of 0 to 2047.5. *)
Lemma hybrid_control_round_cex :
  torque_to_int 2 = Ok 2074 /\ spec_torque_to_int 2 = Some 2075 /\
  rpm_to_int 0 = Ok 2047 /\ spec_rpm_to_int 0 = Some 2048.
Proof. repeat split; vm_compute; reflexivity. Qed.

Example hybrid_control_bytes :
  force_position_hybrid_control 15 0.5 90 0 2 =
    Ok [0; 244; 51; 144; 21; 127; 248; 26].
Proof. vm_compute. reflexivity. Qed.

(** ** Classification of a payload *)

Section Classification.

Lemma byte_val_range (b : byte) : 0 <= byte_val b < 256.
Proof.
  unfold byte_val. pose proof (Byte.to_N_bounded b) as H. lia.
Qed.

Lemma type_tag_range (b0 : byte) : 0 <= type_tag b0 <= 7.
Proof.
  unfold type_tag. pose proof (byte_val_range b0) as H.
  rewrite Z.shiftr_div_pow2 by lia. change (2 ^ 5) with 32.
  assert (byte_val b0 / 32 < 8) by (apply Z.div_lt_upper_bound; lia).
  assert (0 <= byte_val b0 / 32) by (apply Z.div_pos; lia).
  lia.
Qed.

Lemma get_message_type_cons (b0 : byte) (rest : list byte) :
  get_message_type (b0 :: rest) = Ok (classify (type_tag b0)).
Proof.
  unfold get_message_type, classify.
  cbn [get_message_type_loop index nth_error bind].
  fold (type_tag b0). set (k := type_tag b0).
  destruct (Z.eqb_spec k 1) as [-> | H1]; [reflexivity |].
  destruct (Z.eqb_spec k 2) as [-> | H2]; [reflexivity |].
  destruct (Z.eqb_spec k 3) as [-> | H3]; [reflexivity |].
  destruct (Z.eqb_spec k 4) as [-> | H4]; [reflexivity |].
  destruct (Z.eqb_spec k 5) as [-> | H5]; [reflexivity |].
  destruct (Z.leb_spec 1 k), (Z.leb_spec k 5); cbn [andb]; try reflexivity.
  lia.
Qed.

Lemma get_message_type_nil : get_message_type [] = Raise IndexError.
Proof. reflexivity. Qed.

Lemma classify_cases (k : Z) :
  classify k = -1 \/ (classify k = k /\ (k = 1 \/ k = 2 \/ k = 3 \/ k = 4 \/ k = 5)).
Proof.
  unfold classify.
  destruct (Z.leb_spec 1 k), (Z.leb_spec k 5); cbn [andb]; auto.
  right. split; [reflexivity | lia].
Qed.

(** [read_result] hands the payload to the extractor of its type. *)
Lemma read_result_dispatch (msg : list byte) (t : Z) :
  get_message_type msg = Ok t ->
  read_result msg =
    match MESSAGE_MAP t with
    | Some extractor => d <- extractor msg ;; Ok (Some d)
    | None => Ok None
    end.
Proof.
  intros H. unfold read_result, valid_message. rewrite H. cbn [bind].
  destruct (MESSAGE_MAP t); reflexivity.
Qed.

End Classification.

(** C2 (as the code has it). On a payload of at least one byte
    [get_message_type] returns the top three bits of byte 0 when they are
    one of the tags 1 to 5 and the sentinel -1 otherwise; on the
    zero-length payload the read of byte 0 raises IndexError, so that
    payload is not classified. *)
Theorem get_message_type_classifies (b0 : byte) (rest : list byte) :
  0 <= type_tag b0 <= 7 /\
  get_message_type (b0 :: rest) =
    Ok (if (1 <=? type_tag b0) && (type_tag b0 <=? 5) then type_tag b0 else -1) /\
  get_message_type [] = Raise IndexError.
Proof.
  split; [apply type_tag_range |].
  split; [apply get_message_type_cons | apply get_message_type_nil].
Qed.

(** C2 as stated fails on the zero-length payload. *)
Lemma get_message_type_empty_cex :
  get_message_type [] = Raise IndexError /\ get_message_type [] <> Ok (-1).
Proof. split; [reflexivity | discriminate]. Qed.

Example get_message_type_examples :
  get_message_type [x20] = Ok 1 /\ get_message_type [xa0] = Ok 5 /\
  get_message_type [x00] = Ok (-1) /\ get_message_type [xe0] = Ok (-1).
Proof. repeat split. Qed.

(** ** The extractors on payloads of full and of short length *)

Section Extractors.

Lemma position_speed_message_full (b0 b1 b2 b3 b4 b5 b6 b7 : byte) (tl : list byte) :
  position_speed_message (b0 :: b1 :: b2 :: b3 :: b4 :: b5 :: b6 :: b7 :: tl) =
    (err <- lookup ERROR_MAP (error_code b0) ;;
     Ok (type1_dict err b1 b2 b3 b4 b5 b6 b7)).
Proof. reflexivity. Qed.

Lemma position_message_full (b0 b1 b2 b3 b4 b5 b6 b7 : byte) (tl : list byte) :
  position_message (b0 :: b1 :: b2 :: b3 :: b4 :: b5 :: b6 :: b7 :: tl) =
    (err <- lookup ERROR_MAP (error_code b0) ;;
     Ok (type2_dict err b1 b2 b3 b4 b5 b6 b7)).
Proof. reflexivity. Qed.

Lemma speed_message_full (b0 b1 b2 b3 b4 b5 b6 b7 : byte) (tl : list byte) :
  speed_message (b0 :: b1 :: b2 :: b3 :: b4 :: b5 :: b6 :: b7 :: tl) =
    (err <- lookup ERROR_MAP (error_code b0) ;;
     Ok (type3_dict err b1 b2 b3 b4 b5 b6 b7)).
Proof. reflexivity. Qed.

Lemma configuration_message_full (b0 b1 b2 : byte) (tl : list byte) :
  configuration_message (b0 :: b1 :: b2 :: tl) =
    (err <- lookup ERROR_MAP (error_code b0) ;;
     code <- lookup CONFIG_MAP (byte_val b1) ;;
     status <- lookup CONFIG_STATUS_MAP (byte_val b2) ;;
     Ok [ ("Message Type", VInt 4); ("Error", VStr err);
          ("Configuration Code", VStr code);
          ("Configuration Status", VStr status) ]%string).
Proof. reflexivity. Qed.

Lemma custom_message_one (b0 : byte) : custom_message [b0] = Raise IndexError.
Proof. reflexivity. Qed.

Lemma custom_message_data (b0 b1 : byte) (data : list byte) :
  custom_message (b0 :: b1 :: data) =
    if (List.length data =? 4)%nat
    then (err <- lookup ERROR_MAP (error_code b0) ;;
          query <- lookup QUERY_MAP (byte_val b1) ;;
          Ok (type5_dict err query data))
    else Raise StructError.
Proof.
  unfold custom_message, unpack_f_be, slice_from.
  cbn [index nth_error bind skipn].
  destruct (List.length data =? 4)%nat; reflexivity.
Qed.

(** Too short payloads, extractor by extractor. *)
Ltac by_length msg H :=
  do 8 (destruct msg as [| ? msg];
        [ first [ reflexivity | exfalso; cbn [List.length] in H; lia ] |]);
  exfalso; cbn [List.length] in H; lia.

Lemma position_speed_message_short (msg : list byte) :
  (1 <= List.length msg < 8)%nat ->
  position_speed_message msg = Raise IndexError.
Proof. intros H. by_length msg H. Qed.

Lemma position_message_short (msg : list byte) :
  (1 <= List.length msg < 8)%nat ->
  position_message msg =
    Raise (if (List.length msg <? 5)%nat then StructError else IndexError).
Proof. intros H. by_length msg H. Qed.

Lemma speed_message_short (msg : list byte) :
  (1 <= List.length msg < 8)%nat ->
  speed_message msg =
    Raise (if (List.length msg <? 5)%nat then StructError else IndexError).
Proof. intros H. by_length msg H. Qed.

Lemma configuration_message_short (msg : list byte) :
  (1 <= List.length msg < 3)%nat ->
  configuration_message msg = Raise IndexError.
Proof. intros H. by_length msg H. Qed.

Lemma custom_message_short (msg : list byte) :
  (1 <= List.length msg < 6)%nat ->
  custom_message msg =
    Raise (if (List.length msg <? 2)%nat then IndexError else StructError).
Proof. intros H. by_length msg H. Qed.

Lemma get_message_type_nonempty (msg : list byte) (t : Z) :
  get_message_type msg = Ok t -> (1 <= List.length msg)%nat.
Proof.
  destruct msg; [discriminate | cbn [List.length]; lia].
Qed.

End Extractors.

(** ** Undefined error codes *)

Section ErrorCodes.

Lemma error_code_range (b0 : byte) : 0 <= error_code b0 <= 31.
Proof.
  unfold error_code.
  change (Z.land (byte_val b0) 0x1F) with (Z.land (byte_val b0) (Z.ones 5)).
  rewrite Z.land_ones by lia. change (2 ^ 5) with 32.
  pose proof (Z.mod_pos_bound (byte_val b0) 32). lia.
Qed.

(** The codes the table lacks: 5 and everything above 7. *)
Lemma ERROR_MAP_undefined (k : Z) :
  0 <= k -> (ERROR_MAP k = None <-> k = 5 \/ 8 <= k).
Proof.
  intros Hk. destruct k as [| p | p]; [| | lia].
  - split; [discriminate | lia].
  - destruct p as [[[p | p |] | [p | p |] |] | [[p | p |] | [p | p |] |] |];
      cbn [ERROR_MAP]; split; intros H; try discriminate; try reflexivity; lia.
Qed.

Lemma lookup_undefined (key : Z) :
  ERROR_MAP key = None -> lookup ERROR_MAP key = Raise (KeyError key).
Proof. intros H. unfold lookup. now rewrite H. Qed.

End ErrorCodes.

(** C1 (as the code has it). When the payload has a known type and is
    long enough for its extractor, and the low 5 bits of byte 0 are a code
    the error table lacks (5, or 8 to 31), decoding raises KeyError with
    that code: a lookup fault, no returned "unknown error code" value, and
    no fall back to code 0. *)
Theorem undefined_error_code_raises (b0 : byte) (rest : list byte) (t : Z) :
  get_message_type (b0 :: rest) = Ok t ->
  long_enough t (List.length (b0 :: rest)) = true ->
  ERROR_MAP (error_code b0) = None ->
  read_result (b0 :: rest) = Raise (KeyError (error_code b0)) /\
  (error_code b0 = 5 \/ 8 <= error_code b0 <= 31).
Proof.
  intros Ht Hlen Herr. split.
  - rewrite (read_result_dispatch _ _ Ht).
    rewrite get_message_type_cons in Ht. injection Ht as <-.
    pose proof (lookup_undefined _ Herr) as Hlk.
    destruct (classify_cases (type_tag b0)) as [E | [E Hk]];
      rewrite E in *; clear E;
      [cbn [long_enough] in Hlen; discriminate Hlen |].
    destruct Hk as [E | [E | [E | [E | E]]]];
      rewrite E in *; clear E; cbn [MESSAGE_MAP long_enough] in *.
    + do 7 (destruct rest as [| ? rest]; [discriminate Hlen |]).
      now rewrite position_speed_message_full, Hlk.
    + do 7 (destruct rest as [| ? rest]; [discriminate Hlen |]).
      now rewrite position_message_full, Hlk.
    + do 7 (destruct rest as [| ? rest]; [discriminate Hlen |]).
      now rewrite speed_message_full, Hlk.
    + do 2 (destruct rest as [| ? rest]; [discriminate Hlen |]).
      now rewrite configuration_message_full, Hlk.
    + destruct rest as [| b1 data]; [discriminate Hlen |].
      rewrite custom_message_data.
      cbn [List.length Nat.eqb] in Hlen. rewrite Hlen.
      now rewrite Hlk.
  - pose proof (error_code_range b0) as Hr.
    apply ERROR_MAP_undefined in Herr; lia.
Qed.

Lemma undefined_error_code_raises_witness :
  read_result [x25; x00; x00; x00; x00; x00; x64; x64] = Raise (KeyError (error_code x25)) /\
  (error_code x25 = 5 \/ 8 <= error_code x25 <= 31).
Proof.
  apply (undefined_error_code_raises x25 [x00; x00; x00; x00; x00; x64; x64] 1);
    reflexivity.
Defined.

(** C1 as stated fails: with error code 5 the decoder raises and returns
    nothing. *)
Lemma undefined_error_code_cex :
  read_result [x25; x00; x00; x00; x00; x00; x64; x64] = Raise (KeyError 5) /\
  ~ returns (read_result [x25; x00; x00; x00; x00; x00; x64; x64]).
Proof.
  split; [vm_compute; reflexivity |].
  intros [v H]. vm_compute in H. discriminate H.
Qed.

(** ** Payloads shorter than their type requires *)

(** C3 (as the code has it). A payload of a known type that is shorter
    than the type requires (8, 8, 8, 3 and 6 bytes for the types 1 to 5)
    makes decoding raise: IndexError from the read of a byte beyond the
    end, or struct.error from the unpacking of a float out of fewer than
    four bytes. The exception is not caught and no value is returned. *)
Theorem short_payload_raises (msg : list byte) (t : Z) :
  get_message_type msg = Ok t ->
  1 <= t <= 5 ->
  (List.length msg < required_length t)%nat ->
  read_result msg = Raise (short_payload_exn t (List.length msg)) /\
  (short_payload_exn t (List.length msg) = IndexError \/
   short_payload_exn t (List.length msg) = StructError).
Proof.
  intros Ht Hrange Hlen.
  pose proof (get_message_type_nonempty _ _ Ht) as Hne.
  rewrite (read_result_dispatch _ _ Ht).
  assert (Hk : t = 1 \/ t = 2 \/ t = 3 \/ t = 4 \/ t = 5) by lia.
  destruct Hk as [-> | [-> | [-> | [-> | ->]]]];
    cbn [MESSAGE_MAP required_length short_payload_exn] in *.
  - rewrite position_speed_message_short by lia. auto.
  - rewrite position_message_short by lia.
    destruct (List.length msg <? 5)%nat; auto.
  - rewrite speed_message_short by lia.
    destruct (List.length msg <? 5)%nat; auto.
  - rewrite configuration_message_short by lia. auto.
  - rewrite custom_message_short by lia.
    destruct (List.length msg <? 2)%nat; auto.
Qed.

Lemma short_payload_raises_witness :
  read_result [x20; x00; x00] = Raise (short_payload_exn 1 (List.length [x20; x00; x00])) /\
  (short_payload_exn 1 (List.length [x20; x00; x00]) = IndexError \/
   short_payload_exn 1 (List.length [x20; x00; x00]) = StructError).
Proof.
  apply (short_payload_raises [x20; x00; x00] 1);
    [reflexivity | lia | cbn; lia].
Defined.

(** C3 as stated fails: a type 1 payload of three bytes ends in an
    exception, not in a returned error value. *)
Lemma short_payload_cex :
  read_result [x20; x00; x00] = Raise IndexError /\
  read_result [x40; x00; x00] = Raise StructError /\
  ~ returns (read_result [x20; x00; x00]).
Proof.
  repeat split; try reflexivity.
  intros [v H]. discriminate H.
Qed.

(** ** Type 5: the float over the bytes after index 2 *)

(** C10. A payload of type 5 whose error and query codes are defined is
    decoded only when it is exactly 6 bytes long: the bytes after index 2
    are unpacked as one big-endian binary32 float, so a longer payload
    (an 8 byte frame, say) and a shorter one both make decoding fail, with
    struct.error, or with IndexError when byte 1 is missing. *)
Theorem custom_message_exact_length (msg : list byte) :
  get_message_type msg = Ok 5 ->
  (forall b0, nth_error msg 0 = Some b0 -> ERROR_MAP (error_code b0) <> None) ->
  (forall b1, nth_error msg 1 = Some b1 -> QUERY_MAP (byte_val b1) <> None) ->
  (returns (read_result msg) <-> List.length msg = 6%nat) /\
  (List.length msg = 6%nat ->
   exists d, read_result msg = Ok (Some d) /\
             dict_get "Message Type" d = Some (VInt 5) /\
             dict_get "Data" d =
               Some (VFloat (float_of_bits32 (int_from_bytes_big (slice_from msg 2))))) /\
  (List.length msg <> 6%nat ->
   read_result msg = Raise IndexError \/ read_result msg = Raise StructError).
Proof.
  intros Ht Herr Hq.
  rewrite (read_result_dispatch _ _ Ht). cbn [MESSAGE_MAP].
  destruct msg as [| b0 [| b1 data]]; [discriminate Ht | |].
  - (* one byte *)
    rewrite custom_message_one. cbn [bind List.length].
    repeat split; try (intros H; discriminate H); auto.
    intros [v H]. discriminate H.
  - rewrite custom_message_data. cbn [List.length slice_from skipn].
    destruct (Nat.eqb_spec (List.length data) 4) as [Hd | Hd].
    + specialize (Herr b0 eq_refl). specialize (Hq b1 eq_refl).
      unfold lookup.
      destruct (ERROR_MAP (error_code b0)) as [err |]; [| contradiction].
      destruct (QUERY_MAP (byte_val b1)) as [query |]; [| contradiction].
      cbn [bind].
      repeat split; try lia.
      * intros _. now eexists.
      * intros _. eexists. repeat split; reflexivity.
    + cbn [bind]. repeat split; try lia; auto.
      intros [v H]. discriminate H.
Qed.

Lemma custom_message_exact_length_witness :
  (returns (read_result [xa0; x01; x39; xf7; x24; x7d]) <->
   List.length [xa0; x01; x39; xf7; x24; x7d] = 6%nat) /\
  (List.length [xa0; x01; x39; xf7; x24; x7d] = 6%nat ->
   exists d, read_result [xa0; x01; x39; xf7; x24; x7d] = Ok (Some d) /\
             dict_get "Message Type" d = Some (VInt 5) /\
             dict_get "Data" d =
               Some (VFloat (float_of_bits32
                               (int_from_bytes_big
                                  (slice_from [xa0; x01; x39; xf7; x24; x7d] 2))))) /\
  (List.length [xa0; x01; x39; xf7; x24; x7d] <> 6%nat ->
   read_result [xa0; x01; x39; xf7; x24; x7d] = Raise IndexError \/
   read_result [xa0; x01; x39; xf7; x24; x7d] = Raise StructError).
Proof.
  apply (custom_message_exact_length [xa0; x01; x39; xf7; x24; x7d]).
  - reflexivity.
  - intros b0 H. injection H as <-. vm_compute. discriminate.
  - intros b1 H. injection H as <-. vm_compute. discriminate.
Defined.

Example custom_message_lengths :
  read_result [xa0; x01; x39; xf7; x24; x7d] =
    Ok (Some [ ("Message Type", VInt 5); ("Error", VStr "No Errors");
               ("Query Code", VStr "Angle");
               ("Data", VFloat 0x1.ee48fap-12) ]%string) /\
  read_result [xa0; x01; x39; xf7; x24; x7d; x00; x00] = Raise StructError /\
  read_result [xa0; x01; x39; xf7; x24] = Raise StructError /\
  read_result [xa0] = Raise IndexError.
Proof. repeat split; vm_compute; reflexivity. Qed.

(** ** Temperatures *)

Section Temperatures.

(** The fields of a type 1 reading, for every payload of 8 bytes. *)
Lemma position_speed_message_fields
    (b0 b1 b2 b3 b4 b5 b6 b7 : byte) (err : string) :
  ERROR_MAP (error_code b0) = Some err ->
  exists d,
    position_speed_message [b0; b1; b2; b3; b4; b5; b6; b7] = Ok d /\
    dict_get "Position" d =
      Some (VFloat (float_of_int (int_from_bytes_big [b1; b2])
                    * (25.0 / 65536.0) - 12.5)) /\
    dict_get "Speed" d =
      Some (VFloat (float_of_int (Z.shiftr (int_from_bytes_big [b3; b4]) 4)
                    * (36.0 / 4095.0) - 18.0)) /\
    dict_get "Current" d =
      Some (VFloat (float_of_int (Z.land (int_from_bytes_big [b4; b5]) 0xFFF)
                    * (140.0 / 4095) - 70.0)) /\
    dict_get "Temperature" d = Some (VFloat (type1_temperature (byte_val b6))) /\
    dict_get "MOS" d = Some (VFloat (type1_temperature (byte_val b7))).
Proof.
  intros Herr. rewrite position_speed_message_full.
  unfold lookup. rewrite Herr. cbn [bind].
  eexists. repeat split; reflexivity.
Qed.

(** Two floats are told apart by the primitive comparison, when the
    first is not nan. *)
Lemma float_neq (x y : float) :
  PrimFloat.eqb x x = true -> PrimFloat.eqb x y = false -> x <> y.
Proof. intros Hx Hxy E. subst y. congruence. Qed.

Lemma VFloat_neq (x y : float) :
  PrimFloat.eqb x x = true -> PrimFloat.eqb x y = false -> VFloat x <> VFloat y.
Proof. intros Hx Hxy E. injection E. now apply float_neq. Qed.

(** No temperature byte is decoded to what the single formula gives. *)
Lemma type1_temperature_differs (b : byte) :
  type1_temperature (byte_val b) <> spec_temperature (byte_val b).
Proof. destruct b; apply float_neq; vm_compute; reflexivity. Qed.

End Temperatures.

(** C4 (the code departs from it). On the type 1 payload
    [20 00 00 00 00 00 64 64] with both temperature bytes at 100, the
    claimed [(raw - 50) / 2.0] is 25.0, and position, speed and current
    are decoded as claimed; the code returns -12.5 for both temperatures,
    because it applies the formula to the byte and then once more to the
    result. *)
Theorem type1_temperature_decoded_twice :
  position_speed_message [x20; x00; x00; x00; x00; x00; x64; x64] =
    Ok [ ("Message Type", VInt 1); ("Error", VStr "No Errors");
         ("Position", VFloat (-12.5)); ("Speed", VFloat (-18));
         ("Current", VFloat (-70));
         ("Temperature", VFloat (-12.5)); ("MOS", VFloat (-12.5)) ]%string /\
  spec_temperature (byte_val x64) = 25%float /\
  type1_temperature (byte_val x64) = (-12.5)%float /\
  type1_temperature (byte_val x64) <> spec_temperature (byte_val x64).
Proof.
  repeat split; try (vm_compute; reflexivity).
  apply type1_temperature_differs.
Qed.

(** C5 (as the code has it). For every payload of 8 bytes of type 2 or 3
    with a defined error code, the "Temperature" of the reading is
    [(byte 7 - 50.0) / 2.0]: the extractors of the types 2 and 3 hand the
    raw byte to the same formula that the claim gives for type 1. *)
Theorem type23_temperature_scaled
    (b0 b1 b2 b3 b4 b5 b6 b7 : byte) (t : Z) (err : string) :
  get_message_type [b0; b1; b2; b3; b4; b5; b6; b7] = Ok t ->
  t = 2 \/ t = 3 ->
  ERROR_MAP (error_code b0) = Some err ->
  exists d,
    read_result [b0; b1; b2; b3; b4; b5; b6; b7] = Ok (Some d) /\
    (if t =? 2 then position_message else speed_message)
      [b0; b1; b2; b3; b4; b5; b6; b7] = Ok d /\
    dict_get "Message Type" d = Some (VInt t) /\
    dict_get "Temperature" d =
      Some (VFloat ((float_of_int (byte_val b7) - 50.0) / 2.0)) /\
    dict_get "Temperature" d = Some (VFloat (spec_temperature (byte_val b7))).
Proof.
  intros Ht Hk Herr.
  rewrite (read_result_dispatch _ _ Ht).
  destruct Hk as [-> | ->]; cbn [MESSAGE_MAP Z.eqb Pos.eqb].
  - rewrite position_message_full. unfold lookup. rewrite Herr. cbn [bind].
    eexists. repeat split; reflexivity.
  - rewrite speed_message_full. unfold lookup. rewrite Herr. cbn [bind].
    eexists. repeat split; reflexivity.
Qed.

Lemma type23_temperature_scaled_witness :
  exists d,
    read_result [x40; x00; x00; x00; x00; x00; x00; x64] = Ok (Some d) /\
    (if 2 =? 2 then position_message else speed_message)
      [x40; x00; x00; x00; x00; x00; x00; x64] = Ok d /\
    dict_get "Message Type" d = Some (VInt 2) /\
    dict_get "Temperature" d =
      Some (VFloat ((float_of_int (byte_val x64) - 50.0) / 2.0)) /\
    dict_get "Temperature" d = Some (VFloat (spec_temperature (byte_val x64))).
Proof.
  apply (type23_temperature_scaled x40 x00 x00 x00 x00 x00 x00 x64 2 "No Errors");
    [reflexivity | left; reflexivity | reflexivity].
Defined.

(** C5 as stated fails: with byte 7 at 100 the readings of the types 2
    and 3 carry the temperature 25.0, not the raw 100. *)
Lemma type23_temperature_raw_cex :
  position_message [x40; x00; x00; x00; x00; x00; x00; x64] =
    Ok [ ("Message Type", VInt 2); ("Error", VStr "No Errors");
         ("Position", VFloat 0); ("Current", VFloat 0);
         ("Temperature", VFloat 25) ]%string /\
  speed_message [x60; x00; x00; x00; x00; x00; x00; x64] =
    Ok [ ("Message Type", VInt 3); ("Error", VStr "No Errors");
         ("Speed", VFloat 0); ("Current", VFloat 0);
         ("Temperature", VFloat 25) ]%string /\
  VFloat 25 <> VFloat (float_of_int (byte_val x64)) /\
  VFloat 25 <> VInt (byte_val x64).
Proof.
  repeat split; try (vm_compute; reflexivity).
  - apply VFloat_neq; vm_compute; reflexivity.
  - discriminate.
Qed.

(** * Further properties of the encoder *)

(** ** Fields pushed and read back *)

(** X1. A push can be undone: shifting the result right by the width
    gives the accumulator back, of either sign, and masking it gives the
    low bits of the data. *)
Theorem push_bits_inverse (a d w : Z) :
  0 <= w ->
  exists r, push_bits a d w = Ok r /\
            Z.shiftr r w = a /\
            Z.land r (Z.ones w) = d mod 2 ^ w.
Proof.
  intros Hw. exists (a * 2 ^ w + d mod 2 ^ w).
  assert (Hpow : 0 < 2 ^ w) by (apply Z.pow_pos_nonneg; lia).
  pose proof (Z.mod_pos_bound d (2 ^ w) Hpow) as Hd.
  split; [now apply push_bits_arith |]. split.
  - rewrite Z.shiftr_div_pow2 by assumption.
    rewrite Z.add_comm, Z.div_add by lia.
    rewrite Z.div_small by assumption. reflexivity.
  - rewrite Z.land_ones by assumption.
    rewrite Z.add_comm, Z.mod_add by lia.
    now apply Z.mod_small.
Qed.

Lemma push_bits_inverse_witness :
  exists r, push_bits (-3) 0x1F5 8 = Ok r /\
            Z.shiftr r 8 = -3 /\
            Z.land r (Z.ones 8) = 0x1F5 mod 2 ^ 8.
Proof. apply (push_bits_inverse (-3) 0x1F5 8). lia. Defined.

Section Fields.

Lemma push_fields_app (acc : Z) (fs gs : list (Z * Z)) :
  push_fields acc (fs ++ gs) = (c <- push_fields acc fs ;; push_fields c gs).
Proof.
  revert acc. induction fs as [| [d w] fs IH]; intros acc; cbn [push_fields app bind].
  - reflexivity.
  - destruct (push_bits acc d w) as [acc' | e]; cbn [bind]; [apply IH | reflexivity].
Qed.

Lemma pop_loop_out (ws : list Z) :
  forall c out,
    pop_loop ws c out =
      (fst (pop_loop ws c []), snd (pop_loop ws c []) ++ out).
Proof.
  induction ws as [| w ws IH]; intros c out; cbn [pop_loop].
  - reflexivity.
  - rewrite IH. rewrite (IH _ [_]). cbn [fst snd].
    now rewrite <- app_assoc.
Qed.

(** The accumulator of a run of pushes, as arithmetic. *)
Lemma push_fields_arith (fields : list (Z * Z)) :
  forall acc,
    Forall (fun f => 0 <= snd f) fields ->
    push_fields acc fields =
      Ok (fold_left (fun a f => a * 2 ^ snd f + fst f mod 2 ^ snd f) fields acc).
Proof.
  induction fields as [| [d w] fs IH]; intros acc Hw; cbn [push_fields fold_left].
  - reflexivity.
  - inversion Hw as [| ? ? Hw0 Hws]; subst. cbn [snd fst] in *.
    rewrite push_bits_arith by assumption. cbn [bind]. now apply IH.
Qed.

Lemma fold_fields_bounds (fields : list (Z * Z)) :
  forall acc k,
    Forall (fun f => 0 <= snd f) fields ->
    0 <= k -> 0 <= acc < 2 ^ k ->
    0 <= fold_left (fun a f => a * 2 ^ snd f + fst f mod 2 ^ snd f) fields acc
      < 2 ^ (k + total_width fields) /\ 0 <= total_width fields.
Proof.
  induction fields as [| [d w] fs IH]; intros acc k Hw Hk Hacc;
    cbn [fold_left].
  - change (total_width []) with 0. rewrite Z.add_0_r. split; [assumption | lia].
  - change (total_width ((d, w) :: fs)) with (w + total_width fs).
    inversion Hw as [| ? ? Hw0 Hws]; subst. cbn [snd fst] in *.
    assert (Hpow : 0 < 2 ^ w) by (apply Z.pow_pos_nonneg; lia).
    pose proof (Z.mod_pos_bound d (2 ^ w) Hpow) as Hd.
    destruct (IH (acc * 2 ^ w + d mod 2 ^ w) (k + w) Hws) as [Hb Ht].
    + lia.
    + rewrite Z.pow_add_r by lia. nia.
    + split; [| lia].
      replace (k + (w + total_width fs)) with (k + w + total_width fs) by lia.
      exact Hb.
Qed.

Lemma pack_fields_bounds (fields : list (Z * Z)) :
  Forall (fun f => 0 <= snd f) fields ->
  0 <= pack_fields fields < 2 ^ total_width fields.
Proof.
  intros Hw. unfold pack_fields.
  destruct (fold_fields_bounds fields 0 0 Hw) as [Hb _]; [lia | cbn; lia |].
  exact Hb.
Qed.

End Fields.

(** X2. A run of pushes is read back field by field: popping the widths
    in reverse order from the accumulator returns the starting
    accumulator and, for each field, the data cut to its width. *)
Theorem push_fields_pop_fields (acc : Z) (fields : list (Z * Z)) :
  Forall (fun f => 0 <= snd f) fields ->
  exists c, push_fields acc fields = Ok c /\
            pop_fields (map snd fields) c = (acc, map masked fields).
Proof.
  revert acc. induction fields as [| [d w] fs IH] using rev_ind; intros acc Hw.
  - exists acc. split; reflexivity.
  - apply Forall_app in Hw as [Hfs Hlast].
    inversion Hlast as [| ? ? Hw0 _]; subst. cbn [snd] in Hw0.
    destruct (IH acc Hfs) as [c [Hc Hpop]].
    destruct (push_bits_inverse c d w Hw0) as [r [Hr [Hshift Hmask]]].
    exists r. split.
    + rewrite push_fields_app, Hc. cbn [bind push_fields]. now rewrite Hr.
    + unfold pop_fields in *. rewrite !map_app, rev_app_distr.
      cbn [map rev app pop_loop snd].
      rewrite pop_loop_out, Hshift, Hmask, Hpop. reflexivity.
Qed.

Lemma push_fields_pop_fields_witness :
  exists c, push_fields 0 [(1, 3); (-1, 5); (0x1FF, 8)] = Ok c /\
            pop_fields (map snd [(1, 3); (-1, 5); (0x1FF, 8)]) c =
              (0, map masked [(1, 3); (-1, 5); (0x1FF, 8)]).
Proof.
  apply (push_fields_pop_fields 0 [(1, 3); (-1, 5); (0x1FF, 8)]).
  repeat constructor; cbn; lia.
Defined.

(** ** The bytes of an accumulator *)

Section ByteLists.

Lemma int_of_byte_list_app (l : list Z) (b : Z) :
  int_of_byte_list (l ++ [b]) = int_of_byte_list l * 256 + b.
Proof. unfold int_of_byte_list. now rewrite fold_left_app. Qed.

Lemma byte_at_mod (command : Z) (i : nat) :
  byte_at command i = (command / 256 ^ Z.of_nat i) mod 256.
Proof.
  unfold byte_at. change 0xFF with (Z.ones 8).
  rewrite Z.land_ones, Z.shiftr_div_pow2 by lia.
  rewrite Z.pow_mul_r by lia. reflexivity.
Qed.

Lemma bytes_lsb_first_S (command : Z) (n : nat) :
  bytes_lsb_first command (S n) =
    byte_at command 0 :: bytes_lsb_first (Z.shiftr command 8) n.
Proof.
  unfold bytes_lsb_first. cbn [seq map]. f_equal.
  rewrite <- seq_shift, map_map.
  apply map_ext. intros i. symmetry. apply byte_at_shift.
Qed.

Lemma bytes_msb_first_value (n : nat) :
  forall command,
    int_of_byte_list (bytes_msb_first command n) = command mod 256 ^ Z.of_nat n.
Proof.
  induction n as [| n IH]; intros command.
  - cbn. now rewrite Z.mod_1_r.
  - unfold bytes_msb_first in *. rewrite bytes_lsb_first_S. cbn [rev].
    rewrite int_of_byte_list_app, IH, byte_at_mod.
    rewrite Z.shiftr_div_pow2 by lia.
    change (2 ^ 8) with 256. change (256 ^ Z.of_nat 0) with 1.
    rewrite Z.div_1_r, Nat2Z.inj_succ, Z.pow_succ_r by lia.
    assert (Hpow : 0 < 256 ^ Z.of_nat n) by (apply Z.pow_pos_nonneg; lia).
    rewrite (Z.rem_mul_r command 256 (256 ^ Z.of_nat n)) by lia.
    lia.
Qed.

Lemma bytes_lsb_first_range (command : Z) (n : nat) :
  Forall (fun b => 0 <= b < 256) (bytes_lsb_first command n).
Proof.
  unfold bytes_lsb_first. apply Forall_forall. intros b Hin.
  apply in_map_iff in Hin as [i [<- _]]. apply byte_at_range.
Qed.

Lemma split_into_bytes_range (command len : Z) (le : bool) :
  Forall (fun b => 0 <= b < 256) (split_into_bytes command len le).
Proof.
  unfold split_into_bytes. rewrite split_loop_bytes. cbn [app].
  destruct le; [apply Forall_rev |]; apply bytes_lsb_first_range.
Qed.

Lemma split_into_bytes_big_value (command len : Z) :
  int_of_byte_list (split_into_bytes command len true) =
    command mod 256 ^ Z.max 0 len.
Proof.
  unfold split_into_bytes. rewrite split_loop_bytes. cbn [app].
  fold (bytes_msb_first command (Z.to_nat len)).
  rewrite bytes_msb_first_value. do 2 f_equal. lia.
Qed.

End ByteLists.

(** X3. Read back as a big-endian integer, the bytes that
    [split_into_bytes] gives in its default order are the accumulator
    modulo [256^length]: the bits above [length] bytes are dropped, a
    negative accumulator comes back as its two's complement, and an
    accumulator from 0 to [256^length - 1] comes back whole. *)
Theorem split_into_bytes_round_trip (command len : Z) :
  int_of_byte_list (split_into_bytes command len true) =
    command mod 256 ^ Z.max 0 len /\
  int_of_byte_list (split_into_bytes (command mod 256 ^ Z.max 0 len) len true) =
    command mod 256 ^ Z.max 0 len.
Proof.
  split.
  - apply split_into_bytes_big_value.
  - rewrite split_into_bytes_big_value. apply Z.mod_mod.
    apply Z.pow_nonzero; lia.
Qed.

(** X4. Whatever the accumulator, its sign and the flag, every element
    that [split_into_bytes] returns is a byte value, 0 to 255; the two
    settings of the flag give each other's reverse, and a length that is
    not positive gives the empty list. *)
Theorem split_into_bytes_bytes (command len : Z) (le : bool) :
  Forall (fun b => 0 <= b < 256) (split_into_bytes command len le) /\
  split_into_bytes command len (negb le) = rev (split_into_bytes command len le) /\
  (if len <=? 0 then split_into_bytes command len le = [] else
     split_into_bytes command len le <> []).
Proof.
  split; [apply split_into_bytes_range |]. split.
  - unfold split_into_bytes. destruct le; cbn [negb]; [now rewrite rev_involutive | reflexivity].
  - destruct (Z.leb_spec len 0) as [Hle | Hgt].
    + unfold split_into_bytes.
      replace (Z.to_nat len) with O by lia. now destruct le.
    + intros H. apply (f_equal (@List.length Z)) in H.
      rewrite split_into_bytes_length in H. cbn in H. lia.
Qed.

(** ** The layout of every command *)

Section Layout.

Lemma pack_fields_push (fields : list (Z * Z)) :
  Forall (fun f => 0 <= snd f) fields ->
  push_fields 0 fields = Ok (pack_fields fields).
Proof. intros H. now rewrite push_fields_arith. Qed.

(** Fields that fill [n] bytes exactly lose nothing in the split. *)
Lemma layout_exact (fields : list (Z * Z)) (n : nat) :
  Forall (fun f => 0 <= snd f) fields ->
  total_width fields = 8 * Z.of_nat n ->
  int_of_byte_list (split_into_bytes (pack_fields fields) (Z.of_nat n) true) =
    pack_fields fields /\
  pop_fields (map snd fields) (pack_fields fields) = (0, map masked fields).
Proof.
  intros Hw Ht. split.
  - rewrite split_into_bytes_big_value. apply Z.mod_small.
    pose proof (pack_fields_bounds fields Hw) as Hb.
    rewrite Ht in Hb. rewrite Z.max_r by lia.
    change 256 with (2 ^ 8). rewrite <- Z.pow_mul_r by lia. exact Hb.
  - destruct (push_fields_pop_fields 0 fields Hw) as [c [Hc Hpop]].
    rewrite pack_fields_push in Hc by assumption.
    injection Hc as <-. exact Hpop.
Qed.

End Layout.

Ltac layout_done :=
  match goal with
  | |- total_width ?fs = 8 * Z.of_nat ?n /\ _ =>
      let H := fresh "Hw" in
      let Hv := fresh "Hv" in
      let Hp := fresh "Hp" in
      assert (H : Forall (fun f => 0 <= snd f) fs)
        by (repeat constructor; cbn [snd]; lia);
      destruct (layout_exact fs n H eq_refl) as [Hv Hp];
      split; [reflexivity |];
      split; [exact H |];
      exists (split_into_bytes (pack_fields fs) (Z.of_nat n) true);
      split; [reflexivity |];
      split; [exact Hv |];
      split; [rewrite Hv; exact Hp | apply split_into_bytes_range]
  end.

Ltac layout_int x :=
  destruct (int_of_float x) as [? | ?]; cbn [bind]; [| reflexivity].

(** X5. Every encoder pushes fields whose widths add up to 8 bits for
    each byte of its output (64, 56, 24, 32, 16 and 64 bits): no pushed
    bit is dropped by the split. Read as a big-endian integer the output
    is the packed accumulator, from which every field comes back, cut to
    its width, by popping the widths in reverse; all output elements are
    byte values. When a float conversion raises, the encoder raises the
    same exception. *)
Theorem encode_layout (c : command) :
  match command_fields c with
  | Raise e => encode c = Raise e
  | Ok fields =>
      total_width fields = 8 * Z.of_nat (declared_length c) /\
      Forall (fun f => 0 <= snd f) fields /\
      exists l,
        encode c = Ok l /\
        int_of_byte_list l = pack_fields fields /\
        pop_fields (map snd fields) (int_of_byte_list l) = (0, map masked fields) /\
        Forall (fun b => 0 <= b < 256) l
  end.
Proof.
  destruct c; cbn [command_fields encode declared_length].
  - unfold set_position_control, push_fp32_bits. repeat push_step.
    layout_int (max_speed * 10)%float. repeat push_step.
    layout_int (max_current * 10)%float. repeat push_step.
    layout_done.
  - unfold set_speed_control, push_fp32_bits. repeat push_step.
    layout_int (current * 10)%float. repeat push_step.
    layout_done.
  - unfold set_current_torque_control. repeat push_step. layout_done.
  - unfold set_zero_position. repeat push_step. layout_done.
  - unfold get_motor_pos. repeat push_step. layout_done.
  - unfold get_motor_speed. repeat push_step. layout_done.
  - unfold get_motor_current. repeat push_step. layout_done.
  - unfold get_motor_power. repeat push_step. layout_done.
  - unfold force_position_hybrid_control. repeat push_step.
    layout_int (kp * 4095 / 500)%float. repeat push_step.
    layout_int (kd * 511 / 5)%float. repeat push_step.
    destruct (degrees_to_int position) as [? | ?]; cbn [bind]; [| reflexivity].
    repeat push_step.
    destruct (rpm_to_int speed) as [? | ?]; cbn [bind]; [| reflexivity].
    repeat push_step.
    destruct (torque_to_int torque_ff) as [? | ?]; cbn [bind]; [| reflexivity].
    repeat push_step.
    layout_done.
Qed.

(** ** Closed forms of single commands *)

(** Two lists of the same shape are equal element by element. *)
Ltac list_eq :=
  repeat match goal with
         | |- _ :: _ = _ :: _ => apply (f_equal2 (@cons Z))
         end.

Section ClosedForms.

Lemma split_4 (c : Z) :
  split_into_bytes c 4 default_little_endian =
    [ (c / 16777216) mod 256; (c / 65536) mod 256; (c / 256) mod 256; c mod 256 ].
Proof.
  unfold split_into_bytes, default_little_endian. rewrite split_loop_bytes.
  change (Z.to_nat 4) with 4%nat.
  cbn [app bytes_lsb_first seq map rev]. rewrite !byte_at_mod.
  change (256 ^ Z.of_nat 3) with 16777216. change (256 ^ Z.of_nat 2) with 65536.
  change (256 ^ Z.of_nat 1) with 256. change (256 ^ Z.of_nat 0) with 1.
  now rewrite Z.div_1_r.
Qed.

Lemma split_3 (c : Z) :
  split_into_bytes c 3 default_little_endian =
    [ (c / 65536) mod 256; (c / 256) mod 256; c mod 256 ].
Proof.
  unfold split_into_bytes, default_little_endian. rewrite split_loop_bytes.
  change (Z.to_nat 3) with 3%nat.
  cbn [app bytes_lsb_first seq map rev]. rewrite !byte_at_mod.
  change (256 ^ Z.of_nat 2) with 65536.
  change (256 ^ Z.of_nat 1) with 256. change (256 ^ Z.of_nat 0) with 1.
  now rewrite Z.div_1_r.
Qed.

Lemma set_zero_position_closed (motor_id : Z) :
  set_zero_position motor_id = Ok [ (motor_id / 256) mod 256; motor_id mod 256; 0; 3 ].
Proof.
  unfold set_zero_position. repeat push_step. f_equal.
  rewrite split_4.
  rewrite Z.shiftr_div_pow2 by lia.
  change 0xFF with (Z.ones 8). rewrite Z.land_ones by lia.
  change (2 ^ 8) with 256.
  list_eq; try reflexivity; Z.div_mod_to_equations; lia.
Qed.

End ClosedForms.

(** X6. [set_zero_position] returns the four bytes: high byte of the
    motor id, low byte of the motor id, 0, 3. Only the low 16 bits of the
    id are sent, so two ids that differ by a multiple of 65536 give the
    same command. *)
Theorem set_zero_position_bytes (motor_id k : Z) :
  set_zero_position motor_id =
    Ok [ (motor_id / 256) mod 256; motor_id mod 256; 0; 3 ] /\
  256 * ((motor_id / 256) mod 256) + motor_id mod 256 = motor_id mod 65536 /\
  set_zero_position (motor_id + 65536 * k) = set_zero_position motor_id.
Proof.
  split; [apply set_zero_position_closed |]. split.
  - Z.div_mod_to_equations; lia.
  - rewrite !set_zero_position_closed. f_equal.
    list_eq; try reflexivity; Z.div_mod_to_equations; lia.
Qed.

(** X7. When [value * 10] fits a signed 16 bit int, the last two bytes of
    [set_current_torque_control] are its two's complement, high byte
    first, so a negative current or torque is sent as such; the first
    byte holds the mode, the control status and the return status in its
    3, 3 and 2 bits. *)
Theorem set_current_torque_control_int16
    (value control_status motor_mode message_return : Z) :
  -32768 <= value * 10 < 32768 ->
  exists b0 b1 b2,
    set_current_torque_control value control_status motor_mode message_return =
      Ok [b0; b1; b2] /\
    b0 = (motor_mode mod 8) * 32 + (control_status mod 8) * 4 + message_return mod 4 /\
    0 <= b1 < 256 /\ 0 <= b2 < 256 /\
    int16 (b1 * 256 + b2) = value * 10.
Proof.
  intros Hv. unfold set_current_torque_control. repeat push_step.
  rewrite split_3.
  change (2 ^ 3) with 8. change (2 ^ 2) with 4. change (2 ^ 16) with 65536.
  do 3 eexists. split; [reflexivity |].
  set (v := value * 10) in *.
  split; [| split; [| split]].
  - Z.div_mod_to_equations; lia.
  - Z.div_mod_to_equations; lia.
  - Z.div_mod_to_equations; lia.
  - unfold int16.
    match goal with |- (if ?u <? 32768 then _ else _) = _ =>
      assert (Hu : u = v mod 65536) by (Z.div_mod_to_equations; lia);
      rewrite Hu
    end.
    destruct (Z.ltb_spec (v mod 65536) 32768); Z.div_mod_to_equations; lia.
Qed.

Lemma set_current_torque_control_int16_witness :
  exists b0 b1 b2,
    set_current_torque_control (-12) 1 3 0 = Ok [b0; b1; b2] /\
    b0 = (3 mod 8) * 32 + (1 mod 8) * 4 + 0 mod 4 /\
    0 <= b1 < 256 /\ 0 <= b2 < 256 /\
    int16 (b1 * 256 + b2) = -12 * 10.
Proof. apply (set_current_torque_control_int16 (-12) 1 3 0). lia. Defined.

(** ** The PD-hybrid command at its bounds *)

Section HybridBounds.

Lemma split_8_value (c : Z) :
  0 <= c < 2 ^ 64 ->
  int_of_byte_list (split_into_bytes c default_length default_little_endian) = c.
Proof.
  intros H. unfold default_length, default_little_endian.
  rewrite split_into_bytes_big_value. apply Z.mod_small.
  change (256 ^ Z.max 0 8) with (2 ^ 64). exact H.
Qed.

Lemma Ok_inj {A} (a b : A) : Ok a = Ok b -> a = b.
Proof. intros H. now inversion H. Qed.

Lemma degrees_to_int_range (x : float) (n : Z) :
  degrees_to_int x = Ok n -> 0 <= n <= 65536.
Proof.
  unfold degrees_to_int. destruct (int_of_float _); cbn [bind]; intros H;
    [injection H as <-; lia | discriminate H].
Qed.

Lemma rpm_to_int_range (x : float) (n : Z) :
  rpm_to_int x = Ok n -> 0 <= n <= 4095.
Proof.
  unfold rpm_to_int. destruct (int_of_float _); cbn [bind]; intros H;
    [injection H as <-; lia | discriminate H].
Qed.

Lemma torque_to_int_range (t n : Z) :
  torque_to_int t = Ok n -> 0 <= n <= 4095.
Proof.
  unfold torque_to_int. destruct (int_of_float _); cbn [bind]; intros H;
    [injection H as <-; lia | discriminate H].
Qed.

End HybridBounds.

(** X8. The upper clamp of the position, 65536, does not fit the 16 bit
    field: a position that saturates high is packed as 0, and the command
    is byte for byte the one of a position that saturates low. *)
Theorem hybrid_control_position_wraps
    (kp kd hi lo speed : float) (torque_ff : Z) :
  degrees_to_int hi = Ok 65536 ->
  degrees_to_int lo = Ok 0 ->
  force_position_hybrid_control kp kd hi speed torque_ff =
    force_position_hybrid_control kp kd lo speed torque_ff.
Proof.
  intros Hhi Hlo. unfold force_position_hybrid_control.
  rewrite Hhi, Hlo. push_step.
  destruct (int_of_float (kp * 4095 / 500)); cbn [bind]; [| reflexivity].
  push_step.
  destruct (int_of_float (kd * 511 / 5)); cbn [bind]; [| reflexivity].
  push_step. now rewrite !push_bits_arith by lia.
Qed.

Lemma hybrid_control_position_wraps_witness :
  force_position_hybrid_control 15 0.5 1000 0 2 =
    force_position_hybrid_control 15 0.5 (-1000) 0 2.
Proof.
  apply (hybrid_control_position_wraps 15 0.5 1000 (-1000) 0 2);
    vm_compute; reflexivity.
Defined.

(** X9. From the 8 bytes of a PD-hybrid command, read as a big-endian
    integer [N], the clamped speed and torque come back exactly, as
    [(N / 2^12) mod 2^12] and [N mod 2^12], each from 0 to 4095; the
    clamped position, from 0 to 65536, comes back modulo 65536 as
    [(N / 2^24) mod 2^16]. *)
Theorem hybrid_control_fields_back
    (kp kd position speed : float) (torque_ff : Z) (l : list Z) :
  force_position_hybrid_control kp kd position speed torque_ff = Ok l ->
  exists p s t,
    degrees_to_int position = Ok p /\ 0 <= p <= 65536 /\
    rpm_to_int speed = Ok s /\ 0 <= s <= 4095 /\
    torque_to_int torque_ff = Ok t /\ 0 <= t <= 4095 /\
    int_of_byte_list l mod 4096 = t /\
    (int_of_byte_list l / 4096) mod 4096 = s /\
    (int_of_byte_list l / 16777216) mod 65536 = p mod 65536.
Proof.
  unfold force_position_hybrid_control. push_step.
  destruct (int_of_float (kp * 4095 / 500)) as [kp_int |]; cbn [bind];
    [| discriminate].
  push_step.
  destruct (int_of_float (kd * 511 / 5)) as [kd_int |]; cbn [bind];
    [| discriminate].
  push_step.
  destruct (degrees_to_int position) as [p |] eqn:Hp; cbn [bind]; [| discriminate].
  push_step.
  destruct (rpm_to_int speed) as [s |] eqn:Hs; cbn [bind]; [| discriminate].
  push_step.
  destruct (torque_to_int torque_ff) as [t |] eqn:Ht; cbn [bind]; [| discriminate].
  push_step.
  intros H. apply Ok_inj in H. subst l.
  pose proof (degrees_to_int_range _ _ Hp) as Rp.
  pose proof (rpm_to_int_range _ _ Hs) as Rs.
  pose proof (torque_to_int_range _ _ Ht) as Rt.
  exists p, s, t.
  split; [reflexivity |]. split; [exact Rp |].
  split; [reflexivity |]. split; [exact Rs |].
  split; [reflexivity |]. split; [exact Rt |].
  change (2 ^ 3) with 8. change (2 ^ 12) with 4096.
  change (2 ^ 9) with 512. change (2 ^ 16) with 65536.
  set (kpm := kp_int mod 4096). set (kdm := kd_int mod 512).
  assert (Hkp : 0 <= kpm < 4096) by (apply Z.mod_pos_bound; lia).
  assert (Hkd : 0 <= kdm < 512) by (apply Z.mod_pos_bound; lia).
  rewrite (Z.mod_small s 4096), (Z.mod_small t 4096) by lia.
  change (0 * 8 + 0 mod 8) with 0.
  set (pm := p mod 65536).
  assert (Hpm : 0 <= pm < 65536) by (apply Z.mod_pos_bound; lia).
  clearbody kpm kdm pm.
  rewrite split_8_value.
  - split; [| split]; Z.div_mod_to_equations; lia.
  - change (2 ^ 64) with 18446744073709551616. lia.
Qed.

Lemma hybrid_control_fields_back_witness :
  exists p s t,
    degrees_to_int 90 = Ok p /\ 0 <= p <= 65536 /\
    rpm_to_int 0 = Ok s /\ 0 <= s <= 4095 /\
    torque_to_int 2 = Ok t /\ 0 <= t <= 4095 /\
    int_of_byte_list [0; 244; 51; 144; 21; 127; 248; 26] mod 4096 = t /\
    (int_of_byte_list [0; 244; 51; 144; 21; 127; 248; 26] / 4096) mod 4096 = s /\
    (int_of_byte_list [0; 244; 51; 144; 21; 127; 248; 26] / 16777216) mod 65536 =
      p mod 65536.
Proof.
  apply (hybrid_control_fields_back 15 0.5 90 0 2).
  vm_compute. reflexivity.
Defined.

(** ** [debug] *)

(** X10. [debug] writes one string for each element, and loses nothing:
    read back as hexadecimal numbers the strings are the ints it was
    given, negative ones included. *)
Theorem debug_round_trip (command : list Z) :
  map HexString.to_Z (debug command) = command /\
  List.length (debug command) = List.length command.
Proof.
  unfold debug. split.
  - rewrite map_map. rewrite <- (map_id command) at 2.
    apply map_ext. intros z. apply HexString.to_Z_of_Z.
  - apply length_map.
Qed.

Example debug_set_zero_position :
  option_map debug (match set_zero_position 1 with Ok l => Some l | Raise _ => None end) =
    Some ["0x0"; "0x1"; "0x0"; "0x3"]%string.
Proof. reflexivity. Qed.

(** * Further properties of the decoder *)

(** ** What [read_result] returns *)

Section Readings.

Lemma read_result_cons (b0 : byte) (rest : list byte) :
  read_result (b0 :: rest) =
    match MESSAGE_MAP (classify (type_tag b0)) with
    | Some extractor => d <- extractor (b0 :: rest) ;; Ok (Some d)
    | None => Ok None
    end.
Proof. apply read_result_dispatch, get_message_type_cons. Qed.

Lemma classify_unknown (k : Z) :
  0 <= k <= 7 -> (classify k = -1 <-> k = 0 \/ k = 6 \/ k = 7).
Proof.
  intros Hk. unfold classify.
  destruct (Z.leb_spec 1 k), (Z.leb_spec k 5); cbn [andb]; lia.
Qed.

Lemma byte_split (b0 : byte) :
  byte_val b0 = 32 * type_tag b0 + error_code b0.
Proof.
  unfold type_tag, error_code.
  change 0x1F with (Z.ones 5).
  rewrite Z.shiftr_div_pow2, Z.land_ones by lia.
  change (2 ^ 5) with 32. apply Z.div_mod. lia.
Qed.

Lemma lookup_Ok (table : Z -> option string) (key : Z) (s : string) :
  lookup table key = Ok s -> table key = Some s.
Proof.
  unfold lookup. destruct (table key); intros H; [now inversion H | discriminate H].
Qed.

(** Runs an extractor that returned: every read and lookup on the way
    returned too. *)
Ltac ran :=
  repeat match goal with
         | |- context [bind ?r _] =>
             let E := fresh "E" in
             destruct r eqn:E; cbn [bind]; [| discriminate]
         end.

Lemma extractor_reading (t : Z) (extractor : list byte -> result dict)
    (b0 : byte) (rest : list byte) (d : dict) :
  MESSAGE_MAP t = Some extractor ->
  extractor (b0 :: rest) = Ok d ->
  exists err,
    ERROR_MAP (error_code b0) = Some err /\
    dict_get "Message Type" d = Some (VInt t) /\
    dict_get "Error" d = Some (VStr err).
Proof.
  intros Hmap.
  assert (Ht : t = 1 \/ t = 2 \/ t = 3 \/ t = 4 \/ t = 5).
  { destruct t as [| p | p]; try discriminate Hmap.
    destruct p as [[[|[]|] | [|[]|] |] | [[|[]|] | [|[]|] |] |];
      try discriminate Hmap; lia. }
  destruct Ht as [-> | [-> | [-> | [-> | ->]]]];
    cbn [MESSAGE_MAP] in Hmap; apply (f_equal (fun o => match o with
                                                        | Some f => f (b0 :: rest)
                                                        | None => Raise IndexError
                                                        end)) in Hmap;
    cbn beta iota in Hmap; rewrite <- Hmap; clear Hmap extractor.
  - unfold position_speed_message. cbn [index nth_error bind]. ran.
    intros H. apply Ok_inj in H. subst d.
    eexists. split; [eapply lookup_Ok; eassumption |]. split; reflexivity.
  - unfold position_message. cbn [index nth_error bind]. ran.
    intros H. apply Ok_inj in H. subst d.
    eexists. split; [eapply lookup_Ok; eassumption |]. split; reflexivity.
  - unfold speed_message. cbn [index nth_error bind]. ran.
    intros H. apply Ok_inj in H. subst d.
    eexists. split; [eapply lookup_Ok; eassumption |]. split; reflexivity.
  - unfold configuration_message. cbn [index nth_error bind]. ran.
    intros H. apply Ok_inj in H. subst d.
    eexists. split; [eapply lookup_Ok; eassumption |]. split; reflexivity.
  - unfold custom_message. cbn [index nth_error bind]. ran.
    intros H. apply Ok_inj in H. subst d.
    eexists. split; [eapply lookup_Ok; eassumption |]. split; reflexivity.
Qed.

End Readings.

(** X11. [read_result] returns [None] exactly on the payloads of at
    least one byte whose top three bits are 0, 6 or 7, whatever their
    length and their other bits; these are the payloads on which
    [valid_message] returns false. *)
Theorem read_result_none (msg : list byte) :
  (read_result msg = Ok None <->
   exists b0 rest, msg = b0 :: rest /\
                   (type_tag b0 = 0 \/ type_tag b0 = 6 \/ type_tag b0 = 7)) /\
  (read_result msg = Ok None <-> valid_message msg = Ok false).
Proof.
  destruct msg as [| b0 rest].
  - split; split; try discriminate. intros [b [r [H _]]]. discriminate H.
  - pose proof (classify_unknown _ (type_tag_range b0)) as Hu.
    rewrite read_result_cons. unfold valid_message.
    rewrite get_message_type_cons. cbn [bind].
    destruct (classify_cases (type_tag b0)) as [E | [E Hk]]; rewrite E.
    + apply Hu in E. cbn [MESSAGE_MAP]. split; split; try reflexivity.
      intros _. exists b0, rest. split; [reflexivity | exact E].
    + assert (Hn : ~ (type_tag b0 = 0 \/ type_tag b0 = 6 \/ type_tag b0 = 7)) by lia.
      destruct Hk as [-> | [-> | [-> | [-> | ->]]]]; cbn [MESSAGE_MAP];
        (split; split;
         [ destruct (_ (b0 :: rest)); cbn [bind]; discriminate
         | intros [b [r [H Ht]]]; inversion H; subst; lia
         | destruct (_ (b0 :: rest)); cbn [bind]; discriminate
         | discriminate ]).
Qed.

(** X12. A reading that [read_result] returns carries the type and the
    error of byte 0: its "Message Type" is the tag [t] in the top three
    bits, from 1 to 5, its "Error" is the table's text for the low five
    bits, and byte 0 is [32 * t] plus that error code. *)
Theorem read_result_reading (msg : list byte) (d : dict) :
  read_result msg = Ok (Some d) ->
  exists b0 rest t err,
    msg = b0 :: rest /\
    get_message_type msg = Ok t /\ 1 <= t <= 5 /\
    byte_val b0 = 32 * t + error_code b0 /\
    ERROR_MAP (error_code b0) = Some err /\
    dict_get "Message Type" d = Some (VInt t) /\
    dict_get "Error" d = Some (VStr err).
Proof.
  destruct msg as [| b0 rest]; [discriminate |].
  rewrite read_result_cons. intros H.
  destruct (MESSAGE_MAP (classify (type_tag b0))) as [extractor |] eqn:Hmap;
    [| discriminate H].
  destruct (extractor (b0 :: rest)) as [d' | e] eqn:Hex; cbn [bind] in H;
    [| discriminate H].
  apply Ok_inj in H. injection H as ->.
  destruct (extractor_reading _ _ _ _ _ Hmap Hex) as [err [Herr [Hty He]]].
  destruct (classify_cases (type_tag b0)) as [E | [E Hk]].
  - rewrite E in Hmap. discriminate Hmap.
  - exists b0, rest, (type_tag b0), err.
    rewrite E in Hty. rewrite get_message_type_cons, E.
    repeat split; try assumption; try lia.
    apply byte_split.
Qed.

Lemma read_result_reading_witness :
  exists b0 rest t err,
    [xa0; x01; x39; xf7; x24; x7d] = b0 :: rest /\
    get_message_type [xa0; x01; x39; xf7; x24; x7d] = Ok t /\ 1 <= t <= 5 /\
    byte_val b0 = 32 * t + error_code b0 /\
    ERROR_MAP (error_code b0) = Some err /\
    dict_get "Message Type"
      [ ("Message Type", VInt 5); ("Error", VStr "No Errors");
        ("Query Code", VStr "Angle"); ("Data", VFloat 0x1.ee48fap-12) ]%string
      = Some (VInt t) /\
    dict_get "Error"
      [ ("Message Type", VInt 5); ("Error", VStr "No Errors");
        ("Query Code", VStr "Angle"); ("Data", VFloat 0x1.ee48fap-12) ]%string
      = Some (VStr err).
Proof.
  apply (read_result_reading [xa0; x01; x39; xf7; x24; x7d]).
  vm_compute. reflexivity.
Defined.

(** X13. The extractors of the types 1 to 4 read fixed positions only:
    bytes that follow the 8 bytes of a type 1, 2 or 3 payload, or the 3
    bytes of a type 4 payload, change nothing in what [read_result]
    returns or raises. *)
Theorem read_result_ignores_padding (msg tl : list byte) (t : Z) :
  get_message_type msg = Ok t ->
  1 <= t <= 4 ->
  List.length msg = required_length t ->
  read_result (msg ++ tl) = read_result msg.
Proof.
  intros Ht Hrange Hlen.
  destruct msg as [| b0 rest]; [discriminate Ht |].
  rewrite get_message_type_cons in Ht. apply Ok_inj in Ht.
  cbn [app]. rewrite !read_result_cons, Ht.
  assert (Hk : t = 1 \/ t = 2 \/ t = 3 \/ t = 4) by lia.
  destruct Hk as [-> | [-> | [-> | ->]]]; cbn [MESSAGE_MAP required_length] in *.
  - do 7 (destruct rest as [| ? rest]; [discriminate Hlen |]).
    destruct rest; [| discriminate Hlen]. cbn [app].
    now rewrite !position_speed_message_full.
  - do 7 (destruct rest as [| ? rest]; [discriminate Hlen |]).
    destruct rest; [| discriminate Hlen]. cbn [app].
    now rewrite !position_message_full.
  - do 7 (destruct rest as [| ? rest]; [discriminate Hlen |]).
    destruct rest; [| discriminate Hlen]. cbn [app].
    now rewrite !speed_message_full.
  - do 2 (destruct rest as [| ? rest]; [discriminate Hlen |]).
    destruct rest; [| discriminate Hlen]. cbn [app].
    now rewrite !configuration_message_full.
Qed.

Lemma read_result_ignores_padding_witness :
  read_result ([x20; x00; x00; x00; x00; x00; x64; x64] ++ [xff; xff]) =
    read_result [x20; x00; x00; x00; x00; x00; x64; x64].
Proof.
  apply (read_result_ignores_padding
           [x20; x00; x00; x00; x00; x00; x64; x64] [xff; xff] 1);
    [reflexivity | lia | reflexivity].
Defined.

(** ** The payloads that decode *)

Section Decodable.

(** Closes [(exists d, r = Ok (Some d)) <-> b = true] once [r] and [b]
    are computed. *)
Ltac settle :=
  cbn [bind is_some andb];
  split;
  [ intros [? H]; first [discriminate H | reflexivity]
  | intros H; first [discriminate H | eexists; reflexivity] ].

Lemma decodable_type1 (b0 : byte) (rest : list byte) :
  (exists d, (d <- position_speed_message (b0 :: rest) ;; Ok (Some d)) = Ok (Some d)) <->
  (8 <=? List.length (b0 :: rest))%nat && is_some (ERROR_MAP (error_code b0)) && true = true.
Proof.
  destruct (Nat.leb_spec 8 (List.length (b0 :: rest))) as [Hlen | Hlen].
  - do 7 (destruct rest as [| ? rest]; [cbn [List.length] in Hlen; lia |]).
    rewrite position_speed_message_full. unfold lookup.
    destruct (ERROR_MAP (error_code b0)); settle.
  - rewrite position_speed_message_short by (cbn [List.length] in *; lia). settle.
Qed.

Lemma decodable_type2 (b0 : byte) (rest : list byte) :
  (exists d, (d <- position_message (b0 :: rest) ;; Ok (Some d)) = Ok (Some d)) <->
  (8 <=? List.length (b0 :: rest))%nat && is_some (ERROR_MAP (error_code b0)) && true = true.
Proof.
  destruct (Nat.leb_spec 8 (List.length (b0 :: rest))) as [Hlen | Hlen].
  - do 7 (destruct rest as [| ? rest]; [cbn [List.length] in Hlen; lia |]).
    rewrite position_message_full. unfold lookup.
    destruct (ERROR_MAP (error_code b0)); settle.
  - rewrite position_message_short by (cbn [List.length] in *; lia). settle.
Qed.

Lemma decodable_type3 (b0 : byte) (rest : list byte) :
  (exists d, (d <- speed_message (b0 :: rest) ;; Ok (Some d)) = Ok (Some d)) <->
  (8 <=? List.length (b0 :: rest))%nat && is_some (ERROR_MAP (error_code b0)) && true = true.
Proof.
  destruct (Nat.leb_spec 8 (List.length (b0 :: rest))) as [Hlen | Hlen].
  - do 7 (destruct rest as [| ? rest]; [cbn [List.length] in Hlen; lia |]).
    rewrite speed_message_full. unfold lookup.
    destruct (ERROR_MAP (error_code b0)); settle.
  - rewrite speed_message_short by (cbn [List.length] in *; lia). settle.
Qed.

Lemma decodable_type4 (b0 : byte) (rest : list byte) :
  (exists d, (d <- configuration_message (b0 :: rest) ;; Ok (Some d)) = Ok (Some d)) <->
  (3 <=? List.length (b0 :: rest))%nat && is_some (ERROR_MAP (error_code b0)) &&
  (is_some (CONFIG_MAP (byte_val (nth 1 (b0 :: rest) x00))) &&
   is_some (CONFIG_STATUS_MAP (byte_val (nth 2 (b0 :: rest) x00)))) = true.
Proof.
  destruct (Nat.leb_spec 3 (List.length (b0 :: rest))) as [Hlen | Hlen].
  - do 2 (destruct rest as [| ? rest]; [cbn [List.length] in Hlen; lia |]).
    rewrite configuration_message_full. unfold lookup. cbn [nth].
    destruct (ERROR_MAP (error_code b0)); [| settle].
    destruct (CONFIG_MAP (byte_val b)); [| settle].
    destruct (CONFIG_STATUS_MAP (byte_val b1)); settle.
  - rewrite configuration_message_short by (cbn [List.length] in *; lia). settle.
Qed.

Lemma decodable_type5 (b0 : byte) (rest : list byte) :
  (exists d, (d <- custom_message (b0 :: rest) ;; Ok (Some d)) = Ok (Some d)) <->
  (List.length (b0 :: rest) =? 6)%nat && is_some (ERROR_MAP (error_code b0)) &&
  is_some (QUERY_MAP (byte_val (nth 1 (b0 :: rest) x00))) = true.
Proof.
  destruct rest as [| b1 data].
  - rewrite custom_message_one. settle.
  - rewrite custom_message_data. cbn [List.length Nat.eqb nth].
    change (match List.length data with
            | 0%nat => false
            | S m' => (m' =? 3)%nat
            end) with (List.length data =? 4)%nat.
    destruct (List.length data =? 4)%nat; [| settle].
    unfold lookup.
    destruct (ERROR_MAP (error_code b0)); [| settle].
    destruct (QUERY_MAP (byte_val b1)); settle.
Qed.

End Decodable.

(** X14. [read_result] returns a reading exactly when the payload has a
    known type, the length its extractor can read (at least 8 bytes for
    the types 1 to 3, at least 3 for type 4, exactly 6 for type 5), a
    defined error code and, for the types 4 and 5, defined configuration,
    status or query codes. On every other payload it raises or returns
    [None]. *)
Theorem read_result_returns_iff_decodable (msg : list byte) :
  (exists d, read_result msg = Ok (Some d)) <-> decodable msg = true.
Proof.
  destruct msg as [| b0 rest].
  - split; [intros [d H]; discriminate H | discriminate].
  - rewrite read_result_cons. unfold decodable.
    destruct (classify_cases (type_tag b0)) as [E | [E Hk]]; rewrite E.
    + cbn [MESSAGE_MAP long_enough andb].
      split; [intros [d H]; discriminate H | discriminate].
    + destruct Hk as [Hk | [Hk | [Hk | [Hk | Hk]]]]; rewrite Hk;
        cbn [MESSAGE_MAP long_enough].
      * apply decodable_type1.
      * apply decodable_type2.
      * apply decodable_type3.
      * apply decodable_type4.
      * apply decodable_type5.
Qed.

(** ** Configuration and query codes *)

Section SubCodes.

Lemma CONFIG_MAP_undefined (k : Z) :
  0 <= k -> (CONFIG_MAP k = None <-> 3 < k).
Proof.
  intros Hk. destruct k as [| p | p]; [| | lia].
  - split; [discriminate | lia].
  - destruct p as [[p | p |] | [p | p |] |];
      cbn [CONFIG_MAP]; split; intros H; try discriminate; try reflexivity; lia.
Qed.

Lemma CONFIG_STATUS_MAP_undefined (k : Z) :
  0 <= k -> (CONFIG_STATUS_MAP k = None <-> 1 < k).
Proof.
  intros Hk. destruct k as [| p | p]; [| | lia].
  - split; [discriminate | lia].
  - destruct p as [p | p |];
      cbn [CONFIG_STATUS_MAP]; split; intros H; try discriminate; try reflexivity; lia.
Qed.

Lemma QUERY_MAP_undefined (k : Z) :
  0 <= k -> (QUERY_MAP k = None <-> 6 < k).
Proof.
  intros Hk. destruct k as [| p | p]; [| | lia].
  - split; [discriminate | lia].
  - destruct p as [[[p | p |] | [p | p |] |] | [[p | p |] | [p | p |] |] |];
      cbn [QUERY_MAP]; split; intros H; try discriminate; try reflexivity; lia.
Qed.

End SubCodes.

(** X15. On a payload of at least 3 bytes with a defined error code,
    [configuration_message] looks up byte 1 before byte 2: a
    configuration code above 3 raises KeyError with that code, whatever
    the status byte; otherwise a status above 1 raises KeyError with the
    status; otherwise a reading of type 4 is returned. *)
Theorem configuration_message_codes (b0 b1 b2 : byte) (tl : list byte) (err : string) :
  ERROR_MAP (error_code b0) = Some err ->
  if 3 <? byte_val b1 then
    configuration_message (b0 :: b1 :: b2 :: tl) = Raise (KeyError (byte_val b1))
  else if 1 <? byte_val b2 then
    configuration_message (b0 :: b1 :: b2 :: tl) = Raise (KeyError (byte_val b2))
  else
    exists code status,
      CONFIG_MAP (byte_val b1) = Some code /\
      CONFIG_STATUS_MAP (byte_val b2) = Some status /\
      configuration_message (b0 :: b1 :: b2 :: tl) =
        Ok [ ("Message Type", VInt 4); ("Error", VStr err);
             ("Configuration Code", VStr code);
             ("Configuration Status", VStr status) ]%string.
Proof.
  intros Herr. rewrite configuration_message_full. unfold lookup. rewrite Herr.
  cbn [bind].
  pose proof (byte_val_range b1) as R1. pose proof (byte_val_range b2) as R2.
  pose proof (CONFIG_MAP_undefined (byte_val b1) (proj1 R1)) as C1.
  pose proof (CONFIG_STATUS_MAP_undefined (byte_val b2) (proj1 R2)) as C2.
  destruct (Z.ltb_spec 3 (byte_val b1)) as [H1 | H1].
  - apply C1 in H1. now rewrite H1.
  - destruct (CONFIG_MAP (byte_val b1)) as [code |];
      [| exfalso; assert (3 < byte_val b1) by (now apply C1); lia].
    cbn [bind].
    destruct (Z.ltb_spec 1 (byte_val b2)) as [H2 | H2].
    + apply C2 in H2. now rewrite H2.
    + destruct (CONFIG_STATUS_MAP (byte_val b2)) as [status |].
      * exists code, status. repeat split.
      * exfalso. assert (1 < byte_val b2) by (now apply C2). lia.
Qed.

Lemma configuration_message_codes_witness :
  if 3 <? byte_val x01 then
    configuration_message (x80 :: x01 :: x01 :: []) = Raise (KeyError (byte_val x01))
  else if 1 <? byte_val x01 then
    configuration_message (x80 :: x01 :: x01 :: []) = Raise (KeyError (byte_val x01))
  else
    exists code status,
      CONFIG_MAP (byte_val x01) = Some code /\
      CONFIG_STATUS_MAP (byte_val x01) = Some status /\
      configuration_message (x80 :: x01 :: x01 :: []) =
        Ok [ ("Message Type", VInt 4); ("Error", VStr "No Errors");
             ("Configuration Code", VStr code);
             ("Configuration Status", VStr status) ]%string.
Proof.
  apply (configuration_message_codes x80 x01 x01 [] "No Errors"). reflexivity.
Defined.

(** X16. On a payload of exactly 6 bytes with a defined error code,
    [custom_message] raises KeyError with byte 1 when that query code is
    above 6, and otherwise returns a reading of type 5 whose "Data" is
    the float of the last four bytes. *)
Theorem custom_message_query_code
    (b0 b1 d0 d1 d2 d3 : byte) (err : string) :
  ERROR_MAP (error_code b0) = Some err ->
  if 6 <? byte_val b1 then
    custom_message [b0; b1; d0; d1; d2; d3] = Raise (KeyError (byte_val b1))
  else
    exists query,
      QUERY_MAP (byte_val b1) = Some query /\
      custom_message [b0; b1; d0; d1; d2; d3] =
        Ok [ ("Message Type", VInt 5); ("Error", VStr err);
             ("Query Code", VStr query);
             ("Data", VFloat (float_of_bits32 (int_from_bytes_big [d0; d1; d2; d3]))) ]%string.
Proof.
  intros Herr. rewrite custom_message_data. cbn [List.length Nat.eqb].
  unfold lookup. rewrite Herr. cbn [bind].
  pose proof (byte_val_range b1) as R1.
  pose proof (QUERY_MAP_undefined (byte_val b1) (proj1 R1)) as Q.
  destruct (Z.ltb_spec 6 (byte_val b1)) as [H1 | H1].
  - apply Q in H1. now rewrite H1.
  - destruct (QUERY_MAP (byte_val b1)) as [query |].
    + exists query. split; reflexivity.
    + exfalso. assert (6 < byte_val b1) by (now apply Q). lia.
Qed.

Lemma custom_message_query_code_witness :
  if 6 <? byte_val x07 then
    custom_message [xa0; x07; x39; xf7; x24; x7d] = Raise (KeyError (byte_val x07))
  else
    exists query,
      QUERY_MAP (byte_val x07) = Some query /\
      custom_message [xa0; x07; x39; xf7; x24; x7d] =
        Ok [ ("Message Type", VInt 5); ("Error", VStr "No Errors");
             ("Query Code", VStr query);
             ("Data", VFloat (float_of_bits32
                                (int_from_bytes_big [x39; xf7; x24; x7d]))) ]%string.
Proof.
  apply (custom_message_query_code xa0 x07 x39 xf7 x24 x7d "No Errors"). reflexivity.
Defined.

(** ** The fields and the ranges of the readings *)

Section Ranges.

Lemma In_zrange (n : nat) :
  forall start z, start <= z < start + Z.of_nat n -> In z (zrange start n).
Proof.
  induction n as [| n IH]; intros start z Hz; cbn [zrange].
  - lia.
  - destruct (Z.eq_dec z start) as [-> | Hne]; [now left | right].
    apply IH. lia.
Qed.

Lemma type1_position_field_eq (b1 b2 : byte) :
  int_from_bytes_big [b1; b2] = type1_position_field b1 b2 /\
  0 <= type1_position_field b1 b2 < 65536.
Proof.
  unfold int_from_bytes_big, type1_position_field. cbn [fold_left].
  pose proof (byte_val_range b1). pose proof (byte_val_range b2). lia.
Qed.

Lemma type1_speed_field_eq (b3 b4 : byte) :
  Z.shiftr (int_from_bytes_big [b3; b4]) 4 = type1_speed_field b3 b4 /\
  0 <= type1_speed_field b3 b4 < 4096.
Proof.
  unfold int_from_bytes_big, type1_speed_field. cbn [fold_left].
  rewrite Z.shiftr_div_pow2 by lia. change (2 ^ 4) with 16.
  pose proof (byte_val_range b3). pose proof (byte_val_range b4).
  split; Z.div_mod_to_equations; lia.
Qed.

Lemma type1_current_field_eq (b4 b5 : byte) :
  Z.land (int_from_bytes_big [b4; b5]) 0xFFF = type1_current_field b4 b5 /\
  0 <= type1_current_field b4 b5 < 4096.
Proof.
  unfold int_from_bytes_big, type1_current_field. cbn [fold_left].
  change 0xFFF with (Z.ones 12). rewrite Z.land_ones by lia.
  change (2 ^ 12) with 4096.
  pose proof (byte_val_range b4). pose proof (byte_val_range b5).
  split; Z.div_mod_to_equations; lia.
Qed.

(** Every value of each field decodes within the range of its quantity. *)
Lemma positions_checked :
  forallb (fun n => between_lt (-12.5) 12.5 (PositionSpeedMessage.get_position n))
          (zrange 0 (Z.to_nat 65536)) = true.
Proof. vm_compute. reflexivity. Qed.

Lemma speeds_checked :
  forallb (fun n => between (-18) 18 (PositionSpeedMessage.get_speed n))
          (zrange 0 (Z.to_nat 4096)) = true.
Proof. vm_compute. reflexivity. Qed.

Lemma currents_checked :
  forallb (fun n => between (-70) 70 (PositionSpeedMessage.get_current n))
          (zrange 0 (Z.to_nat 4096)) = true.
Proof. vm_compute. reflexivity. Qed.

Lemma type1_temperatures_checked :
  forallb (fun n => between (-37.5) 26.25 (type1_temperature n))
          (zrange 0 (Z.to_nat 256)) = true.
Proof. vm_compute. reflexivity. Qed.

Lemma type23_currents_checked :
  forallb (fun n => between 0 6553.5 (PositionMessage.get_current n))
          (zrange 0 (Z.to_nat 65536)) = true.
Proof. vm_compute. reflexivity. Qed.

Lemma type23_temperatures_checked :
  forallb (fun n => between (-25) 102.5 (PositionMessage.get_temp n))
          (zrange 0 (Z.to_nat 256)) = true.
Proof. vm_compute. reflexivity. Qed.

Lemma checked (P : Z -> bool) (k : Z) (n : Z) :
  forallb P (zrange 0 (Z.to_nat k)) = true -> 0 <= n < k -> P n = true.
Proof.
  intros H Hn. rewrite forallb_forall in H. apply H.
  apply In_zrange. lia.
Qed.

End Ranges.

(** X17. In a type 1 payload byte 4 is shared: the speed field is byte 3
    and the high half of byte 4, the current field is the low half of
    byte 4 and byte 5, both from 0 to 4095; the position field is the
    bytes 1 and 2, from 0 to 65535. The reading holds the three fields
    scaled by the helpers of the extractor. *)
Theorem position_speed_message_field_bytes
    (b0 b1 b2 b3 b4 b5 b6 b7 : byte) (err : string) :
  ERROR_MAP (error_code b0) = Some err ->
  exists d,
    position_speed_message [b0; b1; b2; b3; b4; b5; b6; b7] = Ok d /\
    dict_get "Position" d =
      Some (VFloat (PositionSpeedMessage.get_position (byte_val b1 * 256 + byte_val b2))) /\
    dict_get "Speed" d =
      Some (VFloat (PositionSpeedMessage.get_speed
                      (byte_val b3 * 16 + byte_val b4 / 16))) /\
    dict_get "Current" d =
      Some (VFloat (PositionSpeedMessage.get_current
                      ((byte_val b4 mod 16) * 256 + byte_val b5))) /\
    0 <= byte_val b1 * 256 + byte_val b2 < 65536 /\
    0 <= byte_val b3 * 16 + byte_val b4 / 16 < 4096 /\
    0 <= (byte_val b4 mod 16) * 256 + byte_val b5 < 4096.
Proof.
  intros Herr. rewrite position_speed_message_full. unfold lookup. rewrite Herr.
  cbn [bind]. unfold type1_dict.
  destruct (type1_position_field_eq b1 b2) as [-> Rp].
  destruct (type1_speed_field_eq b3 b4) as [-> Rs].
  destruct (type1_current_field_eq b4 b5) as [-> Rc].
  eexists. split; [reflexivity |].
  repeat split; first [exact (proj1 Rp) | exact (proj2 Rp) | exact (proj1 Rs)
                      | exact (proj2 Rs) | exact (proj1 Rc) | exact (proj2 Rc)].
Qed.

Lemma position_speed_message_field_bytes_witness :
  exists d,
    position_speed_message [x20; x80; x00; x7f; xf8; x00; x64; x64] = Ok d /\
    dict_get "Position" d =
      Some (VFloat (PositionSpeedMessage.get_position (byte_val x80 * 256 + byte_val x00))) /\
    dict_get "Speed" d =
      Some (VFloat (PositionSpeedMessage.get_speed
                      (byte_val x7f * 16 + byte_val xf8 / 16))) /\
    dict_get "Current" d =
      Some (VFloat (PositionSpeedMessage.get_current
                      ((byte_val xf8 mod 16) * 256 + byte_val x00))) /\
    0 <= byte_val x80 * 256 + byte_val x00 < 65536 /\
    0 <= byte_val x7f * 16 + byte_val xf8 / 16 < 4096 /\
    0 <= (byte_val xf8 mod 16) * 256 + byte_val x00 < 4096.
Proof.
  apply (position_speed_message_field_bytes x20 x80 x00 x7f xf8 x00 x64 x64 "No Errors").
  reflexivity.
Defined.

(** X18. Whatever the bytes, a type 1 reading lies within the ranges of
    its quantities: the position from -12.5 to below 12.5, the speed from
    -18 to 18, the current from -70 to 70, and each of the two
    temperatures, as the extractor computes them, from -37.5 to 26.25;
    no field is ever a nan. *)
Theorem position_speed_message_ranges
    (b0 b1 b2 b3 b4 b5 b6 b7 : byte) (err : string) :
  ERROR_MAP (error_code b0) = Some err ->
  exists p s c t m,
    position_speed_message [b0; b1; b2; b3; b4; b5; b6; b7] =
      Ok [ ("Message Type", VInt 1); ("Error", VStr err);
           ("Position", VFloat p); ("Speed", VFloat s); ("Current", VFloat c);
           ("Temperature", VFloat t); ("MOS", VFloat m) ]%string /\
    between_lt (-12.5) 12.5 p = true /\
    between (-18) 18 s = true /\
    between (-70) 70 c = true /\
    between (-37.5) 26.25 t = true /\
    between (-37.5) 26.25 m = true.
Proof.
  intros Herr. rewrite position_speed_message_full. unfold lookup. rewrite Herr.
  cbn [bind]. unfold type1_dict.
  destruct (type1_position_field_eq b1 b2) as [-> Rp].
  destruct (type1_speed_field_eq b3 b4) as [-> Rs].
  destruct (type1_current_field_eq b4 b5) as [-> Rc].
  do 5 eexists. split; [reflexivity |].
  split; [| split; [| split; [| split]]].
  - exact (checked (fun n => between_lt (-12.5) 12.5 (PositionSpeedMessage.get_position n))
                   65536 _ positions_checked Rp).
  - exact (checked (fun n => between (-18) 18 (PositionSpeedMessage.get_speed n))
                   4096 _ speeds_checked Rs).
  - exact (checked (fun n => between (-70) 70 (PositionSpeedMessage.get_current n))
                   4096 _ currents_checked Rc).
  - exact (checked (fun n => between (-37.5) 26.25 (type1_temperature n))
                   256 _ type1_temperatures_checked (byte_val_range b6)).
  - exact (checked (fun n => between (-37.5) 26.25 (type1_temperature n))
                   256 _ type1_temperatures_checked (byte_val_range b7)).
Qed.

Lemma position_speed_message_ranges_witness :
  exists p s c t m,
    position_speed_message [x20; xff; xff; xff; xff; xff; xff; x00] =
      Ok [ ("Message Type", VInt 1); ("Error", VStr "No Errors");
           ("Position", VFloat p); ("Speed", VFloat s); ("Current", VFloat c);
           ("Temperature", VFloat t); ("MOS", VFloat m) ]%string /\
    between_lt (-12.5) 12.5 p = true /\
    between (-18) 18 s = true /\
    between (-70) 70 c = true /\
    between (-37.5) 26.25 t = true /\
    between (-37.5) 26.25 m = true.
Proof.
  apply (position_speed_message_ranges x20 xff xff xff xff xff xff x00 "No Errors").
  reflexivity.
Defined.

(** X19. Whatever the bytes, the readings of the types 2 and 3 hold a
    current from 0 to 6553.5, a tenth of the unsigned 16 bit field in
    the bytes 5 and 6, and a temperature from -25 to 102.5; the position
    or speed is the float of the bytes 1 to 4 as it is, any float. *)
Theorem position_and_speed_message_ranges
    (b0 b1 b2 b3 b4 b5 b6 b7 : byte) (err : string) :
  ERROR_MAP (error_code b0) = Some err ->
  exists c t,
    position_message [b0; b1; b2; b3; b4; b5; b6; b7] =
      Ok [ ("Message Type", VInt 2); ("Error", VStr err);
           ("Position", VFloat (float_of_bits32 (int_from_bytes_big [b1; b2; b3; b4])));
           ("Current", VFloat c); ("Temperature", VFloat t) ]%string /\
    speed_message [b0; b1; b2; b3; b4; b5; b6; b7] =
      Ok [ ("Message Type", VInt 3); ("Error", VStr err);
           ("Speed", VFloat (float_of_bits32 (int_from_bytes_big [b1; b2; b3; b4])));
           ("Current", VFloat c); ("Temperature", VFloat t) ]%string /\
    c = (float_of_int (byte_val b5 * 256 + byte_val b6) / 10)%float /\
    between 0 6553.5 c = true /\
    between (-25) 102.5 t = true.
Proof.
  intros Herr. rewrite position_message_full, speed_message_full.
  unfold lookup. rewrite Herr. cbn [bind]. unfold type2_dict, type3_dict.
  destruct (type1_position_field_eq b5 b6) as [-> Rc].
  do 2 eexists. split; [reflexivity |]. split; [reflexivity |].
  split; [reflexivity |]. split.
  - exact (checked (fun n => between 0 6553.5 (PositionMessage.get_current n))
                   65536 _ type23_currents_checked Rc).
  - exact (checked (fun n => between (-25) 102.5 (PositionMessage.get_temp n))
                   256 _ type23_temperatures_checked (byte_val_range b7)).
Qed.

Lemma position_and_speed_message_ranges_witness :
  exists c t,
    position_message [x40; x42; xb4; x00; x00; xff; xff; xff] =
      Ok [ ("Message Type", VInt 2); ("Error", VStr "No Errors");
           ("Position", VFloat (float_of_bits32
                                  (int_from_bytes_big [x42; xb4; x00; x00])));
           ("Current", VFloat c); ("Temperature", VFloat t) ]%string /\
    speed_message [x40; x42; xb4; x00; x00; xff; xff; xff] =
      Ok [ ("Message Type", VInt 3); ("Error", VStr "No Errors");
           ("Speed", VFloat (float_of_bits32
                               (int_from_bytes_big [x42; xb4; x00; x00])));
           ("Current", VFloat c); ("Temperature", VFloat t) ]%string /\
    c = (float_of_int (byte_val xff * 256 + byte_val xff) / 10)%float /\
    between 0 6553.5 c = true /\
    between (-25) 102.5 t = true.
Proof.
  apply (position_and_speed_message_ranges x40 x42 xb4 x00 x00 xff xff xff "No Errors").
  reflexivity.
Defined.

(** ** The tag in the first byte of a command *)

Section ModeTag.

Lemma fold_fields_split (fields : list (Z * Z)) :
  forall acc,
    Forall (fun f => 0 <= snd f) fields ->
    fold_left (fun a f => a * 2 ^ snd f + fst f mod 2 ^ snd f) fields acc =
      acc * 2 ^ total_width fields + pack_fields fields.
Proof.
  unfold pack_fields.
  induction fields as [| [d w] fs IH]; intros acc Hw.
  - cbn. lia.
  - inversion Hw as [| ? ? Hw0 Hws]; subst. cbn [snd] in Hw0.
    change (total_width ((d, w) :: fs)) with (w + total_width fs).
    cbn [fold_left fst snd].
    rewrite (IH (acc * 2 ^ w + d mod 2 ^ w) Hws).
    rewrite (IH (0 * 2 ^ w + d mod 2 ^ w) Hws).
    destruct (fold_fields_bounds fs 0 0 Hws) as [_ Ht]; [lia | cbn; lia |].
    rewrite Z.pow_add_r by lia. ring.
Qed.

Lemma split_into_bytes_head (c : Z) (n : nat) :
  exists rest,
    split_into_bytes c (Z.of_nat (S n)) true =
      (c / 256 ^ Z.of_nat n) mod 256 :: rest.
Proof.
  unfold split_into_bytes. rewrite split_loop_bytes, Nat2Z.id. cbn [app].
  unfold bytes_lsb_first. rewrite seq_S, map_app, rev_app_distr.
  cbn [map rev app Nat.add]. rewrite byte_at_mod. eexists. reflexivity.
Qed.

(** A 3 bit field pushed first is the top of the first byte. *)
Lemma head_tag (d : Z) (fs : list (Z * Z)) (n : nat) :
  Forall (fun f => 0 <= snd f) fs ->
  total_width fs = 8 * Z.of_nat n + 5 ->
  exists b0 rest,
    split_into_bytes (pack_fields ((d, 3) :: fs)) (Z.of_nat (S n)) true = b0 :: rest /\
    b0 / 32 = d mod 8.
Proof.
  intros Hw Ht.
  destruct (split_into_bytes_head (pack_fields ((d, 3) :: fs)) n) as [rest Hrest].
  eexists. exists rest. split; [exact Hrest |].
  unfold pack_fields at 1. cbn [fold_left fst snd].
  rewrite (fold_fields_split fs _ Hw), Ht.
  pose proof (pack_fields_bounds fs Hw) as Hb. rewrite Ht in Hb.
  change (2 ^ 3) with 8.
  rewrite Z.pow_add_r in * by lia. change (2 ^ 5) with 32 in *.
  replace (2 ^ (8 * Z.of_nat n)) with (256 ^ Z.of_nat n) in *
    by (change 256 with (2 ^ 8); now rewrite <- Z.pow_mul_r by lia).
  set (P := 256 ^ Z.of_nat n) in *.
  assert (HP : 0 < P) by (apply Z.pow_pos_nonneg; lia).
  set (r := pack_fields fs) in *.
  pose proof (Z.mod_pos_bound d 8 ltac:(lia)) as Hd.
  set (dm := d mod 8) in *.
  replace ((0 * 8 + dm) * (P * 32) + r) with (dm * 32 * P + r) by ring.
  rewrite Z.div_add_l by lia.
  assert (Hq : 0 <= r / P < 32).
  { split; [apply Z.div_pos; lia | apply Z.div_lt_upper_bound; lia]. }
  clearbody dm. Z.div_mod_to_equations. lia.
Qed.

(** The output of every encoder is the split of its packed fields. *)
Lemma encode_fields (c : command) :
  encode c =
    (fields <- command_fields c ;;
     Ok (split_into_bytes (pack_fields fields) (Z.of_nat (declared_length c)) true)).
Proof.
  destruct c; cbn [command_fields encode declared_length].
  - unfold set_position_control, push_fp32_bits. repeat push_step.
    layout_int (max_speed * 10)%float. repeat push_step.
    layout_int (max_current * 10)%float. repeat push_step. reflexivity.
  - unfold set_speed_control, push_fp32_bits. repeat push_step.
    layout_int (current * 10)%float. repeat push_step. reflexivity.
  - unfold set_current_torque_control. repeat push_step. reflexivity.
  - unfold set_zero_position. repeat push_step. reflexivity.
  - unfold get_motor_pos. repeat push_step. reflexivity.
  - unfold get_motor_speed. repeat push_step. reflexivity.
  - unfold get_motor_current. repeat push_step. reflexivity.
  - unfold get_motor_power. repeat push_step. reflexivity.
  - unfold force_position_hybrid_control. repeat push_step.
    layout_int (kp * 4095 / 500)%float. repeat push_step.
    layout_int (kd * 511 / 5)%float. repeat push_step.
    destruct (degrees_to_int position) as [? | ?]; cbn [bind]; [| reflexivity].
    repeat push_step.
    destruct (rpm_to_int speed) as [? | ?]; cbn [bind]; [| reflexivity].
    repeat push_step.
    destruct (torque_to_int torque_ff) as [? | ?]; cbn [bind]; [| reflexivity].
    repeat push_step. reflexivity.
Qed.

End ModeTag.

(** X20. The top three bits of the first byte of a command are its tag:
    the motor mode modulo 8 for the position, speed and current or torque
    commands, 7 for the four queries and 0 for the PD-hybrid command,
    whatever the other arguments. *)
Theorem encode_first_byte_tag (c : command) (l : list Z) (tag : Z) :
  encode c = Ok l ->
  command_tag c = Some tag ->
  exists b0 rest, l = b0 :: rest /\ b0 / 32 = tag /\ 0 <= tag <= 7.
Proof.
  intros Henc Htag.
  assert (Hrange : 0 <= tag <= 7).
  { destruct c; cbn [command_tag] in Htag; inversion Htag; subst;
      try lia; match goal with |- context [?m mod 8] =>
                 pose proof (Z.mod_pos_bound m 8 ltac:(lia)); lia end. }
  rewrite encode_fields in Henc.
  enough (exists b0 rest, l = b0 :: rest /\ b0 / 32 = tag) as [b0 [rest [H1 H2]]]
    by (exists b0, rest; auto).
  revert Henc.
  destruct c as [ position motor_mode max_speed max_current message_return
                | speed motor_mode current message_return
                | v control_status motor_mode message_return
                | motor_id | | | |
                | kp kd position speed torque_ff ];
    cbn [command_fields declared_length command_tag] in *;
    try discriminate Htag; injection Htag as <-.
  - destruct (int_of_float (max_speed * 10)) as [a |]; cbn [bind]; [| discriminate].
    destruct (int_of_float (max_current * 10)) as [a0 |]; cbn [bind]; [| discriminate].
    intros H; apply Ok_inj in H; subst l.
    destruct (head_tag motor_mode
                [(pack_f position, 32); (a, 15); (a0, 12); (message_return, 2)] 7)
      as [b0 [rest [E T]]]; [repeat constructor; cbn [snd]; lia | reflexivity |].
    exists b0, rest. split; [exact E | exact T].
  - destruct (int_of_float (current * 10)) as [a |]; cbn [bind]; [| discriminate].
    intros H; apply Ok_inj in H; subst l.
    destruct (head_tag motor_mode
                [(0, 3); (message_return, 2); (pack_f speed, 32); (a, 16)] 6)
      as [b0 [rest [E T]]]; [repeat constructor; cbn [snd]; lia | reflexivity |].
    exists b0, rest. split; [exact E | exact T].
  - cbn [bind]. intros H; apply Ok_inj in H; subst l.
    destruct (head_tag motor_mode
                [(control_status, 3); (message_return, 2); (v * 10, 16)] 2)
      as [b0 [rest [E T]]]; [repeat constructor; cbn [snd]; lia | reflexivity |].
    exists b0, rest. split; [exact E | exact T].
  - cbn [bind]. intros H; apply Ok_inj in H; subst l.
    destruct (head_tag 7 [(0, 5); (1, 8)] 1)
      as [b0 [rest [E T]]]; [repeat constructor; cbn [snd]; lia | reflexivity |].
    exists b0, rest. split; [exact E | exact T].
  - cbn [bind]. intros H; apply Ok_inj in H; subst l.
    destruct (head_tag 7 [(0, 5); (2, 8)] 1)
      as [b0 [rest [E T]]]; [repeat constructor; cbn [snd]; lia | reflexivity |].
    exists b0, rest. split; [exact E | exact T].
  - cbn [bind]. intros H; apply Ok_inj in H; subst l.
    destruct (head_tag 7 [(0, 5); (3, 8)] 1)
      as [b0 [rest [E T]]]; [repeat constructor; cbn [snd]; lia | reflexivity |].
    exists b0, rest. split; [exact E | exact T].
  - cbn [bind]. intros H; apply Ok_inj in H; subst l.
    destruct (head_tag 7 [(0, 5); (4, 8)] 1)
      as [b0 [rest [E T]]]; [repeat constructor; cbn [snd]; lia | reflexivity |].
    exists b0, rest. split; [exact E | exact T].
  - destruct (int_of_float (kp * 4095 / 500)) as [a |]; cbn [bind]; [| discriminate].
    destruct (int_of_float (kd * 511 / 5)) as [a0 |]; cbn [bind]; [| discriminate].
    destruct (degrees_to_int position) as [a1 |]; cbn [bind]; [| discriminate].
    destruct (rpm_to_int speed) as [a2 |]; cbn [bind]; [| discriminate].
    destruct (torque_to_int torque_ff) as [a3 |]; cbn [bind]; [| discriminate].
    intros H; apply Ok_inj in H; subst l.
    destruct (head_tag 0 [(a, 12); (a0, 9); (a1, 16); (a2, 12); (a3, 12)] 7)
      as [b0 [rest [E T]]]; [repeat constructor; cbn [snd]; lia | reflexivity |].
    exists b0, rest. split; [exact E | exact T].
Qed.

Lemma encode_first_byte_tag_witness :
  exists b0 rest,
    [40; 86; 128; 0; 0; 150; 0; 200] = b0 :: rest /\ b0 / 32 = 1 /\ 0 <= 1 <= 7.
Proof.
  apply (encode_first_byte_tag (PositionControl 90 1 60 5 0));
    vm_compute; reflexivity.
Defined.
